(** * Stock AI Assistant front end: chat session and dashboard view-model

    A shallow embedding of the stateful parts of the React front end
    ([hooks/useChat], [components/chat/ChatInterface],
    [components/chat/ChatInput], [pages/Dashboard]) and of the pure
    helpers of [utils/helpers], followed by the properties proved about
    them.

    Conventions.
    - A React state cell is a field of a record; a setter is a function on
      that record.  A functional update [setX(prev => f prev)] applies [f]
      to the cell as it is when the update runs.
    - An [async] function is cut at its [await]s.  The code between two
      awaits runs without interruption (one event-loop turn); what the
      awaited promise settles to is supplied by the environment.
    - A JS string is the sequence of its code units; the model keeps the
      8-bit ones.  JS [null] for an optional value is [None]. *)

From Stdlib Require Import Floats ZArith String Ascii List Bool Lia DecimalString Sorted.
From stdpp Require Import gmap strings list.

Local Open Scope Z_scope.

(** ** JavaScript control flow: completions, try/catch/finally *)

Module Js.

(** What a rejected promise or a [throw] carries: an [Error] with its
    [message]; [status] is the HTTP status of an axios error that has a
    response, absent for a network failure or a timeout. *)
Record JsError := { message : string; status : option Z }.

(** How a block of code, or an awaited promise, ends. *)
Inductive completion (A : Type) : Type :=
| Normal (value : A)
| Throw (err : JsError).
Arguments Normal {A} value.
Arguments Throw {A} err.

(** A block of code that updates a store [S] and ends in a completion. *)
Definition Eff (S A : Type) : Type := S -> S * completion A.

Definition ret {S A} (a : A) : Eff S A := fun s => (s, Normal a).

Definition throw {S A} (e : JsError) : Eff S A := fun s => (s, Throw e).

Definition bind {S A B} (m : Eff S A) (k : A -> Eff S B) : Eff S B :=
  fun s =>
    match m s with
    | (s', Normal a) => k a s'
    | (s', Throw e) => (s', Throw e)
    end.

(** A setter call: update the store, complete normally. *)
Definition update {S} (f : S -> S) : Eff S unit := fun s => (f s, Normal tt).

(** Resuming after [await p]: the settled promise is the completion. *)
Definition settled {S A} (p : completion A) : Eff S A := fun s => (s, p).

(** [try { body } catch (err) { handler }] *)
Definition try_catch {S A} (body : Eff S A) (handler : JsError -> Eff S A)
  : Eff S A :=
  fun s =>
    match body s with
    | (s', Normal a) => (s', Normal a)
    | (s', Throw e) => handler e s'
    end.

(** [try { body } finally { fin }]: [fin] always runs; if it completes
    normally the completion of [body] stands. *)
Definition try_finally {S A} (body : Eff S A) (fin : Eff S unit) : Eff S A :=
  fun s =>
    let '(s1, c) := body s in
    match fin s1 with
    | (s2, Normal _) => (s2, c)
    | (s2, Throw e) => (s2, Throw e)
    end.

(** Truthiness of a string: only the empty string is falsy. *)
Definition truthy (s : string) : bool :=
  match s with EmptyString => false | String _ _ => true end.

(** Truthiness of a string-or-null. *)
Definition truthy_opt (s : option string) : bool :=
  match s with None => false | Some s => truthy s end.

(** White space and line terminators among the 8-bit code units:
    TAB, LF, VT, FF, CR, SP and NBSP. *)
Definition is_whitespace (c : ascii) : bool :=
  let n := N_of_ascii c in
  ((9 <=? n) && (n <=? 13) || (n =? 32) || (n =? 160))%N.

Fixpoint trimStart (s : string) : string :=
  match s with
  | EmptyString => EmptyString
  | String c s' => if is_whitespace c then trimStart s' else s
  end.

(** [trimEnd]: drop the trailing white space; a character is kept when
    it is not white space or when something is kept after it. *)
Fixpoint trimEnd (s : string) : string :=
  match s with
  | EmptyString => EmptyString
  | String c s' =>
      match trimEnd s' with
      | EmptyString => if is_whitespace c then EmptyString else String c EmptyString
      | kept => String c kept
      end
  end.

(** [String.prototype.trim] *)
Definition trim (s : string) : string := trimEnd (trimStart s).

End Js.

(** [Eff S] with stdpp's monad notations: [x ← m; k] and [m ;; k]. *)
#[global] Instance Eff_ret {S} : MRet (Js.Eff S) := fun A => @Js.ret S A.
#[global] Instance Eff_bind {S} : MBind (Js.Eff S) :=
fun A B k m => @Js.bind S A B m k.

(** ** hooks/useChat *)

Module UseChat.
Import Js.

Inductive MessageType := user | assistant | error_type.

(** An entry of [sources] in a chat response. *)
Record Source := {
  source_title : string;
  source_url : string;
  source_name : option string;
  source_published_at : option string;
  source_ticker : option string
}.

(** Body of a successful [POST /chat]. *)
Record ChatResponse := {
  response : string;
  resp_ticker : option string;
  resp_signal : option string;
  resp_confidence : option float;
  resp_sources : option (list Source);
  resp_timestamp : string;
  resp_intent : option string;
  resp_handler : option string;
  context_retrieved : option bool
}.

(** The fields only an assistant message has. *)
Record AssistantFields := {
  ticker : option string;
  signal : option string;
  confidence : option float;
  sources : list Source;
  intent : option string;
  handler : option string;
  contextRetrieved : option bool
}.

Record Message := {
  id : Z;
  type : MessageType;
  content : string;
  timestamp : string;
  details : option AssistantFields
}.

Inductive Role := role_user | role_assistant.

(** An entry of [chatHistory]: [{ role, content }]. *)
Record HistoryEntry := { role : Role; entry_content : string }.

(** The four [useState] cells of the hook. *)
Record HookState := {
  messages : list Message;
  isLoading : bool;
  error : option string;
  chatHistory : list HistoryEntry
}.

(** [useState([])], [useState(false)], [useState(null)], [useState([])] *)
Definition initial : HookState :=
  {| messages := []; isLoading := false; error := None; chatHistory := [] |}.

Definition setMessages (f : list Message -> list Message) (s : HookState) :=
  {| messages := f (messages s); isLoading := isLoading s;
     error := error s; chatHistory := chatHistory s |}.

Definition setIsLoading (b : bool) (s : HookState) :=
  {| messages := messages s; isLoading := b;
     error := error s; chatHistory := chatHistory s |}.

Definition setError (e : option string) (s : HookState) :=
  {| messages := messages s; isLoading := isLoading s;
     error := e; chatHistory := chatHistory s |}.

Definition setChatHistory (f : list HistoryEntry -> list HistoryEntry)
  (s : HookState) :=
  {| messages := messages s; isLoading := isLoading s;
     error := error s; chatHistory := f (chatHistory s) |}.

(** One reading of the clock: [Date.now()] in milliseconds and
    [new Date().toISOString()]. *)
Record Tick := { date_now : Z; iso_string : string }.

(** What [sendChatMessage] posts to [/chat]. *)
Record ChatRequest := {
  req_query : string;
  req_ticker : option string;
  req_chat_history : list HistoryEntry;
  req_structured : bool
}.

Definition error_text : string :=
  "Sorry, I encountered an error processing your request. Please try again.".

Definition userMessage (query : string) (t : Tick) : Message :=
  {| id := date_now t; type := user; content := query;
     timestamp := iso_string t; details := None |}.

Definition aiMessage (r : ChatResponse) (t : Tick) : Message :=
  {| id := date_now t + 1; type := assistant; content := response r;
     timestamp := resp_timestamp r;
     details := Some {| ticker := resp_ticker r;
                        signal := resp_signal r;
                        confidence := resp_confidence r;
                        sources := default [] (resp_sources r);
                        intent := resp_intent r;
                        handler := resp_handler r;
                        contextRetrieved := context_retrieved r |} |}.

Definition errorMessage (t : Tick) : Message :=
  {| id := date_now t + 1; type := error_type; content := error_text;
     timestamp := iso_string t; details := None |}.

(** [sendMessage], from its entry to the [await]: the user message is
    appended, the flags are set and the request is issued; nothing here
    can throw.  [captured] is the [chatHistory] the callback closed over
    ([useCallback] with dependency [chatHistory]). *)
Definition sendMessage_issue (captured : list HistoryEntry)
    (query : string) (ticker : option string) (structured : bool)
    (now : Tick) (s : HookState) : HookState * ChatRequest :=
  let s := setMessages (fun prev => prev ++ [userMessage query now]) s in
  let s := setIsLoading true s in
  let s := setError None s in
  (s, {| req_query := query; req_ticker := ticker;
         req_chat_history := captured; req_structured := structured |}).

(** [sendMessage], from the settling of the request to its return. *)
Definition sendMessage_settle (query : string)
    (outcome : completion ChatResponse) (now : Tick)
  : Eff HookState Message :=
  try_finally
    (try_catch
       (r ← settled outcome;
        update (setMessages (fun prev => prev ++ [aiMessage r now])) ;;
        update (setChatHistory (fun prev =>
                  prev ++ [ {| role := role_user; entry_content := query |};
                            {| role := role_assistant;
                               entry_content := response r |} ])) ;;
        ret (aiMessage r now))
       (fun err =>
          update (setMessages (fun prev => prev ++ [errorMessage now])) ;;
          update (setError (Some (message err))) ;;
          throw err))
    (update (setIsLoading false)).

(** What the environment supplies during one awaited call. *)
Record CallEnv := {
  sent_at : Tick;
  outcome : completion ChatResponse;
  settled_at : Tick
}.

(** One call of [sendMessage] awaited to its end, nothing else running
    in between. *)
Definition sendMessage (captured : list HistoryEntry)
    (query : string) (ticker : option string) (structured : bool)
    (env : CallEnv) : Eff HookState Message :=
  fun s =>
    let '(s1, _) :=
      sendMessage_issue captured query ticker structured (sent_at env) s in
    sendMessage_settle query (outcome env) (settled_at env) s1.

Definition clearMessages (s : HookState) : HookState :=
  setError None (setChatHistory (fun _ => []) (setMessages (fun _ => []) s)).

(** The arguments and the environment of one call. *)
Record Call := {
  call_captured : list HistoryEntry;
  call_query : string;
  call_ticker : option string;
  call_structured : bool;
  call_env : CallEnv
}.

Definition run_call (c : Call) (s : HookState) : HookState :=
  fst (sendMessage (call_captured c) (call_query c) (call_ticker c)
         (call_structured c) (call_env c) s).

(** Calls issued one after the other, each awaited before the next. *)
Definition run_calls (cs : list Call) (s : HookState) : HookState :=
  foldl (fun st c => run_call c st) s cs.

End UseChat.

(** ** components/chat/ChatInput and components/chat/ChatInterface *)

Module ChatUI.
Import Js UseChat.

(** The two [useState] cells of [ChatInput]. *)
Record ChatInputState := { input_message : string; showSuggestions : bool }.

(** [ChatInput.handleSubmit]: the new input state and, when [onSend] is
    called, its argument.  [isLoading] is the prop of the same name. *)
Definition handleSubmit (isLoading : bool) (st : ChatInputState)
  : ChatInputState * option string :=
  if truthy (trim (input_message st)) && negb isLoading
  then ({| input_message := ""; showSuggestions := false |},
        Some (trim (input_message st)))
  else (st, None).

(** [ChatInterface]: the hook, its own state cells and the
    [initialTicker] prop. *)
Record Session := {
  hook : HookState;
  currentTicker : option string;
  lastSources : list Source;
  initialTicker : option string
}.

(** First render: [useChat()], [useState(initialTicker)], [useState([])]. *)
Definition mount (initialTicker : option string) : Session :=
  {| hook := UseChat.initial; currentTicker := initialTicker;
     lastSources := []; initialTicker := initialTicker |}.

Definition setHook (h : HookState) (s : Session) : Session :=
  {| hook := h; currentTicker := currentTicker s;
     lastSources := lastSources s; initialTicker := initialTicker s |}.

Definition setCurrentTicker (t : option string) (s : Session) : Session :=
  {| hook := hook s; currentTicker := t;
     lastSources := lastSources s; initialTicker := initialTicker s |}.

Definition setLastSources (l : list Source) (s : Session) : Session :=
  {| hook := hook s; currentTicker := currentTicker s;
     lastSources := l; initialTicker := initialTicker s |}.

(** Code of the hook run inside the component. *)
Definition in_hook {A} (m : Eff HookState A) : Eff Session A :=
  fun s => let '(h, c) := m (hook s) in (setHook h s, c).

(** [message.ticker] of a message object ([undefined] on a user or an
    error message). *)
Definition message_ticker (m : Message) : option string :=
  match details m with Some d => ticker d | None => None end.

(** [handleSendMessage] up to the [await]; [sendMessage] and
    [currentTicker] are those of the render [s]. *)
Definition handleSendMessage_issue (text : string) (now : Tick) (s : Session)
  : Session * ChatRequest :=
  let '(h, req) :=
    sendMessage_issue (chatHistory (hook s)) text (currentTicker s) false
      now (hook s) in
  (setHook h s, req).

(** [handleSendMessage] after the [await]; [closed_ticker] is the
    [currentTicker] of the render the handler was created in. *)
Definition handleSendMessage_settle (text : string)
    (closed_ticker : option string)
    (outcome : completion ChatResponse) (now : Tick) : Eff Session unit :=
  try_catch
    (reply ← in_hook (sendMessage_settle text outcome now);
     if truthy_opt (message_ticker reply)
        && bool_decide (message_ticker reply ≠ closed_ticker)
     then update (setCurrentTicker (message_ticker reply))
     else mret tt)
    (fun err => mret tt).

(** [handleSendMessage] awaited to its end. *)
Definition handleSendMessage (text : string) (env : CallEnv)
  : Eff Session unit :=
  fun s =>
    let '(s1, _) := handleSendMessage_issue text (sent_at env) s in
    handleSendMessage_settle text (currentTicker s) (outcome env)
      (settled_at env) s1.

(** [handleClearChat]; [confirmed] is the answer to [window.confirm]. *)
Definition handleClearChat (confirmed : bool) (s : Session) : Session :=
  if confirmed
  then setCurrentTicker (initialTicker s)
         (setLastSources [] (setHook (clearMessages (hook s)) s))
  else s.

(** The chat page: the component and the input box it renders. *)
Record Page := { session : Session; input : ChatInputState }.

(** The form's submit event, up to the point where control returns to
    the event loop: the page afterwards and the request issued, if any. *)
Definition submit (now : Tick) (p : Page) : Page * option ChatRequest :=
  match handleSubmit (isLoading (hook (session p))) (input p) with
  | (inp, Some text) =>
      let '(s, req) := handleSendMessage_issue text now (session p) in
      ({| session := s; input := inp |}, Some req)
  | (inp, None) => ({| session := session p; input := inp |}, None)
  end.

(** The example questions of the empty state. *)
Definition examples : list string :=
  ["What's the latest news?"; "Analyze Apple stock"; "Should I buy Tesla?";
   "Compare AAPL and MSFT"]%string.

(** A click on the [i]-th example button.  The buttons are rendered
    while the log is empty and call [handleSendMessage] directly. *)
Definition clickExample (i : nat) (now : Tick) (p : Page)
  : Page * option ChatRequest :=
  match messages (hook (session p)), examples !! i with
  | [], Some text =>
      let '(s, req) := handleSendMessage_issue text now (session p) in
      ({| session := s; input := input p |}, Some req)
  | _, _ => (p, None)
  end.

(** A click on the Clear button, rendered while the log is not empty. *)
Definition clickClear (confirmed : bool) (p : Page) : Page :=
  match messages (hook (session p)) with
  | [] => p
  | _ :: _ =>
      {| session := handleClearChat confirmed (session p); input := input p |}
  end.

End ChatUI.

(** ** pages/Dashboard *)

Module Dashboard.
Import Js.

(** An entry of [analyses] in the overview. *)
Record Analysis := {
  ticker : string;
  signal : string;
  date : string;
  top_reason : option string
}.

(** Body of [GET /analysis/dashboard/overview]. *)
Record Overview := {
  analyses : option (list Analysis);
  signal_distribution : gmap string Z;
  count : Z;
  overview_timestamp : string
}.

(** Body of [GET /prices/{ticker}/latest]. *)
Record PriceData := { price : float; change : float; change_percent : float }.

(** An entry of the body of [GET /news/{ticker}]. *)
Record NewsItem := {
  news_id : Z;
  title : string;
  url : string;
  news_source : string;
  news_ticker : string;
  published_at : string
}.

(** The [useState] cells of the page.  [prices] is a JS object used as
    a map from ticker to price data or [null]. *)
Record State := {
  dashboardData : option Overview;
  prices : gmap string (option PriceData);
  news : list NewsItem;
  loading : bool;
  error : option string;
  signalFilter : option string
}.

Definition initial : State :=
  {| dashboardData := None; prices := ∅; news := []; loading := true;
     error := None; signalFilter := None |}.

Definition setDashboardData (d : option Overview) (s : State) : State :=
  {| dashboardData := d; prices := prices s; news := news s;
     loading := loading s; error := error s; signalFilter := signalFilter s |}.

Definition setPrices (m : gmap string (option PriceData)) (s : State) : State :=
  {| dashboardData := dashboardData s; prices := m; news := news s;
     loading := loading s; error := error s; signalFilter := signalFilter s |}.

Definition setNews (l : list NewsItem) (s : State) : State :=
  {| dashboardData := dashboardData s; prices := prices s; news := l;
     loading := loading s; error := error s; signalFilter := signalFilter s |}.

Definition setLoading (b : bool) (s : State) : State :=
  {| dashboardData := dashboardData s; prices := prices s; news := news s;
     loading := b; error := error s; signalFilter := signalFilter s |}.

Definition setError (e : option string) (s : State) : State :=
  {| dashboardData := dashboardData s; prices := prices s; news := news s;
     loading := loading s; error := e; signalFilter := signalFilter s |}.

Definition setSignalFilter (f : option string) (s : State) : State :=
  {| dashboardData := dashboardData s; prices := prices s; news := news s;
     loading := loading s; error := error s; signalFilter := f |}.

(** Where a call of [fetchDashboardData] is suspended, with the
    request(s) it is waiting for. *)
Inductive Pending :=
| AwaitOverview (limit : Z) (signal_filter : option string)
| AwaitPrices (first : Analysis) (rest : list Analysis)
| AwaitNews (firstTicker : string) (limit days : Z)
| Returned.

(** What the backend answers during one call: the overview, the price
    request of the entry at each index, the news. *)
Record RefreshEnv := {
  overview_result : completion Overview;
  price_result : nat -> completion PriceData;
  news_result : completion (list NewsItem)
}.

Definition load_failed : string :=
  "Failed to load dashboard data. Please try again.".

(** One element of [priceResults]: the inner [try]/[catch] turns a
    failed price request into [price: null]. *)
Definition priceResult (env : RefreshEnv) (i : nat) (a : Analysis)
  : string * option PriceData :=
  match price_result env i with
  | Normal priceData => (ticker a, Some priceData)
  | Throw _ => (ticker a, None)
  end.

(** [priceResults.forEach(({ ticker, price }) => pricesMap[ticker] = price)]
    starting from [{}].  The map holds the own properties the
    assignments create.  One key is outside the model: an assignment to
    ["__proto__"] sets the prototype of the object and creates no
    property. *)
Definition pricesMap (results : list (string * option PriceData))
  : gmap string (option PriceData) :=
  foldl (fun m r => <[ r.1 := r.2 ]> m) ∅ results.

(** [fetchDashboardData] from its entry to the first [await]; the
    [signalFilter] is the one of the render the function belongs to. *)
Definition fetchDashboardData_begin (s : State) : State * Pending :=
  let s1 := setError None (setLoading true s) in
  (s1, AwaitOverview 10 (signalFilter s)).

(** [fetchDashboardData] from the settling of what it waits for to the
    next [await] or to its return. *)
Definition fetchDashboardData_resume (env : RefreshEnv) (p : Pending)
    (s : State) : State * Pending :=
  match p with
  | AwaitOverview _ _ =>
      match overview_result env with
      | Normal overviewData =>
          let s1 := setDashboardData (Some overviewData) s in
          match analyses overviewData with
          | Some (first :: rest) => (s1, AwaitPrices first rest)
          | _ => (setLoading false s1, Returned)
          end
      | Throw _ =>
          (setLoading false (setError (Some load_failed) s), Returned)
      end
  | AwaitPrices first rest =>
      let priceResults := imap (priceResult env) (first :: rest) in
      let s1 := setPrices (pricesMap priceResults) s in
      (s1, AwaitNews (ticker first) 5 30)
  | AwaitNews _ _ _ =>
      match news_result env with
      | Normal newsData => (setLoading false (setNews newsData s), Returned)
      | Throw _ => (setLoading false (setNews [] s), Returned)
      end
  | Returned => (s, Returned)
  end.

(** [n] resumptions in a row, nothing else running in between. *)
Fixpoint resume_n (env : RefreshEnv) (n : nat) (sp : State * Pending)
  : State * Pending :=
  match n with
  | O => sp
  | S n' => resume_n env n' (fetchDashboardData_resume env sp.2 sp.1)
  end.

(** A call suspended at [p] run to its return: at most three awaits
    remain. *)
Definition finish (env : RefreshEnv) (p : Pending) (s : State) : State :=
  (resume_n env 3 (s, p)).1.

(** One whole call, nothing else running in between. *)
Definition fetchDashboardData (env : RefreshEnv) (s : State) : State :=
  let '(s0, p0) := fetchDashboardData_begin s in finish env p0 s0.

(** The [onChange] of the filter selector followed by the effect
    [useEffect(() => fetchDashboardData(), [signalFilter])], which runs
    when the filter has changed. *)
Definition changeFilter (value : string) (s : State)
  : State * option Pending :=
  let f := if truthy value then Some value else None in
  let s1 := setSignalFilter f s in
  if bool_decide (f = signalFilter s) then (s1, None)
  else let '(s2, p) := fetchDashboardData_begin s1 in (s2, Some p).

(** What the page renders. *)
Inductive View :=
| LoaderView
| ErrorView (message : string)
| DashboardView (cards : list (Analysis * option (option PriceData)))
    (recentNews : list NewsItem) (summary : option Overview).

(** [dashboardData?.analyses] when it is a non-empty array, each entry
    with [prices[analysis.ticker]]. *)
Definition cards (s : State) : list (Analysis * option (option PriceData)) :=
  match dashboardData s with
  | Some d =>
      match analyses d with
      | Some l => map (fun a => (a, prices s !! ticker a)) l
      | None => []
      end
  | None => []
  end.

Definition render (s : State) : View :=
  if loading s then LoaderView
  else if truthy_opt (error s) then ErrorView (default "" (error s))
  else DashboardView (cards s) (news s) (dashboardData s).

(** The controls of a view that start a refresh: the filter selector
    and the Refresh button of the dashboard view, the Retry button of
    the error view; the loader has none. *)
Definition offers_refresh (v : View) : bool :=
  match v with
  | LoaderView => false
  | ErrorView _ => true
  | DashboardView _ _ _ => true
  end.

End Dashboard.

(** ** Regular expressions, as far as [utils/helpers] uses them *)

Module Regex.

(** A character class [[lo-hi]]. *)
Inductive Atom := CharRange (lo hi : ascii).

Inductive Term :=
| AssertStart                              (* ^ *)
| AssertEnd                                (* $, without the m flag *)
| Repeat (a : Atom) (min max : nat).       (* a{min,max}, greedy *)

Definition Pattern := list Term.

Definition atom_matches (a : Atom) (c : ascii) : bool :=
  match a with
  | CharRange lo hi =>
      ((N_of_ascii lo <=? N_of_ascii c) && (N_of_ascii c <=? N_of_ascii hi))%N
  end.

(** Does [p] match at a position?  [s] is the input from that position
    on, [at_start] tells whether the position is index 0.  A repetition
    first tries one more character and falls back to the rest of the
    pattern. *)
Fixpoint match_at (p : Pattern) (at_start : bool) (s : string) {struct p}
  : bool :=
  match p with
  | [] => true
  | AssertStart :: p' => at_start && match_at p' at_start s
  | AssertEnd :: p' =>
      match s with
      | EmptyString => match_at p' at_start s
      | String _ _ => false
      end
  | Repeat a mn mx :: p' =>
      (fix rep (mn mx : nat) (at_start : bool) (s : string) {struct mx}
         : bool :=
         let stop :=
           match mn with O => match_at p' at_start s | S _ => false end in
         match mx, s with
         | S mx', String c s' =>
             atom_matches a c && rep (pred mn) mx' false s' || stop
         | _, _ => stop
         end) mn mx at_start s
  end.

(** A match starting at this position or at a later one. *)
Fixpoint search (p : Pattern) (at_start : bool) (s : string) : bool :=
  match_at p at_start s
  || match s with
     | EmptyString => false
     | String _ s' => search p false s'
     end.

(** [RegExp.prototype.test] for a pattern without flags. *)
Definition test (p : Pattern) (s : string) : bool := search p true s.

End Regex.

(** ** utils/helpers *)

Module Helpers.

Inductive JsValue :=
| JsNull
| JsUndefined
| JsNumber (x : float)
| JsString (s : string).

(** Decimal digits of a non-negative integer. *)
Definition digits (n : Z) : string := NilZero.string_of_uint (N.to_uint (Z.to_N n)).

Fixpoint zeros (k : nat) : string :=
  match k with O => EmptyString | S k' => String "0" (zeros k') end.

(** The integer [n] for which [n / 10^f - x] is closest to zero, the
    larger one when two are equally close, for [x = m * 2^e > 0]. *)
Definition nearest_scaled (m : positive) (e : Z) (f : nat) : Z :=
  let scaled := Z.pos m * 10 ^ Z.of_nat f in
  if 0 <=? e then scaled * 2 ^ e
  else (2 * scaled + 2 ^ (- e)) / (2 * 2 ^ (- e)).

(** [m * 2^e >= 10^21] *)
Definition at_least_1e21 (m : positive) (e : Z) : bool :=
  if 0 <=? e then 10 ^ 21 <=? Z.pos m * 2 ^ e
  else 10 ^ 21 * 2 ^ (- e) <=? Z.pos m.

(** The digits of [n] with a point before the last [f] of them, padded
    with zeros on the left so that a digit stands before the point. *)
Definition place_point (n : Z) (f : nat) : string :=
  let m := digits n in
  match f with
  | O => m
  | S _ =>
      let k := String.length m in
      let m := if (k <=? f)%nat then (zeros (f + 1 - k) ++ m)%string else m in
      let k := String.length m in
      (String.substring 0 (k - f) m ++ "." ++ String.substring (k - f) f m)%string
  end.

Section Runtime.

(** Three functions of the JS runtime are left open: [parseFloat] on
    a string, the conversion of a string to a number, and
    [Number.prototype.toString]. *)
Variable parseFloat : string -> float.
Variable toNumber : string -> float.
Variable numberToString : float -> string.

(** [Number.prototype.toFixed(f)] *)
Definition toFixed (f : nat) (x : float) : string :=
  match Prim2SF x with
  | S754_nan => "NaN"
  | S754_infinity false => "Infinity"
  | S754_infinity true => "-Infinity"
  | S754_zero _ => place_point 0 f
  | S754_finite sign m e =>
      let body :=
        if at_least_1e21 m e then numberToString (abs x)
        else place_point (nearest_scaled m e f) f in
      ((if sign then "-" else "") ++ body)%string
  end.

Definition formatPercent (value : JsValue) : string :=
  match value with
  | JsNull | JsUndefined => "N/A"
  | JsString s =>
      let num := parseFloat s in
      ((if (0 <=? num)%float then "+" else "") ++ toFixed 2 num ++ "%")%string
  | JsNumber num =>
      ((if (0 <=? num)%float then "+" else "") ++ toFixed 2 num ++ "%")%string
  end.

Definition formatPrice (price : JsValue) : string :=
  match price with
  | JsNull | JsUndefined => "N/A"
  | JsString s => ("$" ++ toFixed 2 (parseFloat s))%string
  | JsNumber x => ("$" ++ toFixed 2 (parseFloat (numberToString x)))%string
  end.

(** The branches of [formatNumber] on a number. *)
Definition formatNumber_of (num : float) (otherwise : string) : string :=
  if (1000000000 <=? num)%float
  then (toFixed 2 (num / 1000000000)%float ++ "B")%string
  else if (1000000 <=? num)%float
  then (toFixed 2 (num / 1000000)%float ++ "M")%string
  else if (1000 <=? num)%float
  then (toFixed 2 (num / 1000)%float ++ "K")%string
  else otherwise.

Definition formatNumber (num : JsValue) : string :=
  match num with
  | JsNull | JsUndefined => "N/A"
  | JsNumber x => formatNumber_of x (numberToString x)
  | JsString s => formatNumber_of (toNumber s) s
  end.

(** [!value] *)
Definition falsy (v : JsValue) : bool :=
  match v with
  | JsNull | JsUndefined => true
  | JsNumber x => (x =? 0)%float || is_nan x
  | JsString s => negb (Js.truthy s)
  end.

(** Conversion to a string of the argument of [test]. *)
Definition toString (v : JsValue) : string :=
  match v with
  | JsNull => "null"
  | JsUndefined => "undefined"
  | JsNumber x => numberToString x
  | JsString s => s
  end.

(** [/^[A-Z]{1,5}$/] *)
Definition ticker_pattern : Regex.Pattern :=
  [Regex.AssertStart; Regex.Repeat (Regex.CharRange "A" "Z") 1 5;
   Regex.AssertEnd].

Definition isValidTicker (ticker : JsValue) : bool :=
  if falsy ticker then false
  else Regex.test ticker_pattern (toString ticker).

End Runtime.

End Helpers.

(** ** components/chat/ChatInterface: the effect on [messages] *)

Module ChatEffects.
Import Js UseChat ChatUI.

(** [msg.type === 'assistant'] *)
Definition is_assistant (m : Message) : bool :=
  match type m with
  | assistant => true
  | _ => false
  end.

(** [messages.slice().reverse().find(msg => msg.type === 'assistant')] *)
Definition lastAssistantMessage (msgs : list Message) : option Message :=
  List.find is_assistant (rev msgs).

(** [message.sources] of a message object ([undefined] on a user or an
    error message). *)
Definition message_sources (m : Message) : option (list Source) :=
  match details m with
  | Some d => Some (sources d)
  | None => None
  end.

(** The effect on [messages]: the sources of the last assistant message,
    when there is one, become [lastSources].  An array, even an empty
    one, is truthy. *)
Definition syncLastSources (s : Session) : Session :=
  match lastAssistantMessage (messages (hook s)) with
  | Some m =>
      match message_sources m with
      | Some l => setLastSources l s
      | None => s
      end
  | None => s
  end.

End ChatEffects.

(** ** hooks/useStockAnalysis *)

Module StockAnalysis.
Import Js.

Section Hook.

(** Body of [GET /analysis/{ticker}], which the hook stores as it is. *)
Variable Analysis : Type.

Record State := {
  analysis : option Analysis;
  loading : bool;
  error : option string
}.

(** [useState(null)], [useState(false)], [useState(null)] *)
Definition initial : State :=
  {| analysis := None; loading := false; error := None |}.

Definition setAnalysis (a : option Analysis) (s : State) : State :=
  {| analysis := a; loading := loading s; error := error s |}.

Definition setLoading (b : bool) (s : State) : State :=
  {| analysis := analysis s; loading := b; error := error s |}.

Definition setError (e : option string) (s : State) : State :=
  {| analysis := analysis s; loading := loading s; error := e |}.

(** The effect on [ticker], up to the [await]: nothing for a falsy
    ticker, otherwise the flags are set and [getTickerAnalysis(ticker)]
    is called; the result is the state and the ticker asked for, if
    any. *)
Definition fetchAnalysis_begin (ticker : option string) (s : State)
  : State * option string :=
  if truthy_opt ticker
  then (setError None (setLoading true s), ticker)
  else (s, None).

(** [fetchAnalysis] from the settling of the request to its return. *)
Definition fetchAnalysis_settle (o : completion Analysis) : Eff State unit :=
  try_finally
    (try_catch
       (data ← settled o; update (setAnalysis (Some data)))
       (fun err => update (setError (Some (message err)))))
    (update (setLoading false)).

End Hook.

End StockAnalysis.

(** ** utils/helpers: text, market hours, relative dates *)

Module RegexExec.

(** The part of the pattern language [extractTicker] needs: word
    boundaries and bounded repetitions of a character class. *)
Inductive Term :=
| WordBoundary                                   (* \b *)
| Repeat (a : Regex.Atom) (min max : nat).       (* a{min,max}, greedy *)

Definition Pattern := list Term.

(** A word character: a letter, a digit or the underscore. *)
Definition is_word (c : ascii) : bool :=
  let n := N_of_ascii c in
  ((65 <=? n) && (n <=? 90) || (97 <=? n) && (n <=? 122)
   || (48 <=? n) && (n <=? 57) || (n =? 95))%N.

Definition is_word_opt (c : option ascii) : bool :=
  match c with
  | Some c => is_word c
  | None => false
  end.

Definition first_char (s : string) : option ascii :=
  match s with
  | EmptyString => None
  | String c _ => Some c
  end.

(** [\b] holds between a word character and a non-word character or an
    end of the input; [prev] is the character before the position. *)
Definition at_boundary (prev : option ascii) (s : string) : bool :=
  xorb (is_word_opt prev) (is_word_opt (first_char s)).

(** A greedy repetition followed by the continuation [k]: one more
    character is tried first, and given up when what follows fails.  The
    result is the text matched from this position on. *)
Fixpoint rep (a : Regex.Atom) (k : option ascii -> string -> option string)
    (mn mx : nat) (prev : option ascii) (s : string) {struct mx}
  : option string :=
  let stop := match mn with O => k prev s | S _ => None end in
  match mx, s with
  | S mx', String c s' =>
      if Regex.atom_matches a c
      then match rep a k (pred mn) mx' (Some c) s' with
           | Some m => Some (String c m)
           | None => stop
           end
      else stop
  | _, _ => stop
  end.

(** The text [p] matches at a position, if it matches there. *)
Fixpoint exec_at (p : Pattern) (prev : option ascii) (s : string) {struct p}
  : option string :=
  match p with
  | [] => Some EmptyString
  | WordBoundary :: p' => if at_boundary prev s then exec_at p' prev s else None
  | Repeat a mn mx :: p' => rep a (exec_at p') mn mx prev s
  end.

(** The first position, from this one on, where [p] matches. *)
Fixpoint exec_from (p : Pattern) (prev : option ascii) (s : string)
  : option string :=
  match exec_at p prev s with
  | Some m => Some m
  | None =>
      match s with
      | EmptyString => None
      | String c s' => exec_from p (Some c) s'
      end
  end.

(** [match[0]] of [s.match(p)] for a pattern without flags, [null] when
    nothing matches. *)
Definition exec (p : Pattern) (s : string) : option string :=
  exec_from p None s.

End RegexExec.

Module TextHelpers.

(** [text.substring(0, n)]: [n] is clamped to the length of the text
    and, below, to zero. *)
Definition substring_to (n : Z) (text : string) : string :=
  String.substring 0 (Z.to_nat n) text.

(** [truncate(text, length = 100)].  For [text], [None] is [null] or a
    missing argument.  For [length], [None] is a missing argument only:
    the default does not apply to [null], which counts as the number 0
    in the comparison and in [substring], that is [Some 0]. *)
Definition truncate (text : option string) (length : option Z) : string :=
  let length := default 100 length in
  match text with
  | None => EmptyString
  | Some text =>
      if negb (Js.truthy text) then EmptyString
      else if Z.of_nat (String.length text) <=? length then text
      else (substring_to length text ++ "...")%string
  end.

(** [/\b[A-Z]{1,5}\b/] *)
Definition word_ticker_pattern : RegexExec.Pattern :=
  [RegexExec.WordBoundary;
   RegexExec.Repeat (Regex.CharRange "A" "Z") 1 5;
   RegexExec.WordBoundary].

Definition extractTicker (text : string) : option string :=
  RegexExec.exec word_ticker_pattern text.

End TextHelpers.

Module MarketHours.

(** [getDay()], [getHours()] and [getMinutes()] of the current time in
    the Asia/Kolkata zone. *)
Record IstTime := { day : Z; hour : Z; minutes : Z }.

Definition areMarketsOpen (istTime : IstTime) : bool :=
  if (day istTime =? 0) || (day istTime =? 6) then false
  else if (hour istTime <? 9)
          || (hour istTime =? 9) && (minutes istTime <? 15) then false
  else if (hour istTime >? 15)
          || (hour istTime =? 15) && (minutes istTime >? 30) then false
  else true.

Definition getMarketStatus (istTime : IstTime) : string * string :=
  if areMarketsOpen istTime
  then ("Market Open", "text-green-600")%string
  else ("Market Closed", "text-gray-600")%string.

End MarketHours.

Module RelativeDates.

Section Locale.

(** Left to the runtime: the year of a time value in local time, and
    [toLocaleDateString('en-US', ...)], with or without the year. *)
Variable getFullYear : Z -> Z.
Variable toLocaleDateString : Z -> bool -> string.

(** [1000 * 60 * 60 * 24] *)
Definition day_ms : Z := 1000 * 60 * 60 * 24.

(** [formatDate] on the time value of a valid date, in milliseconds;
    [now] is the time value of [new Date()]. *)
Definition formatDate (date now : Z) : string :=
  let diffTime := Z.abs (now - date) in
  let diffDays := diffTime / day_ms in
  if diffDays =? 0 then "Today"
  else if diffDays =? 1 then "Yesterday"
  else if diffDays <? 7 then (Helpers.digits diffDays ++ " days ago")%string
  else toLocaleDateString date
         (negb (getFullYear date =? getFullYear now)).

End Locale.

End RelativeDates.

(** ** pages/Dashboard: the page and its events *)

Module DashboardPage.
Import Js Dashboard.

(** A call of [fetchDashboardData] in flight: its rank among the calls
    started so far (the first call has rank 1) and where it is
    suspended. *)
Record InFlight := { rank : nat; waiting : Pending }.

(** The page: the state cells, the number of calls of
    [fetchDashboardData] started so far, the calls in flight. *)
Record Page := {
  store : State;
  started : nat;
  in_flight : list InFlight
}.









End DashboardPage.

(** * Vocabulary of the statements, and sample data *)

Section ChatVocabulary.
Import Js UseChat ChatUI.

(** The reply a call appends: the assistant message on success, the
    error message on failure. *)
Definition reply_of (c : Call) : Message :=
  match outcome (call_env c) with
  | Normal r => aiMessage r (settled_at (call_env c))
  | Throw _ => errorMessage (settled_at (call_env c))
  end.

(** The two messages of one turn. *)
Definition turn_of (c : Call) : list Message :=
  [userMessage (call_query c) (sent_at (call_env c)); reply_of c].

(** A string made of white space only. *)
Definition whitespace_only (s : string) : Prop :=
  forall c, In c (list_ascii_of_string s) -> is_whitespace c = true.

(** A page with a send pending and a question typed in the box. *)
Definition pending_page : Page :=
  {| session :=
       {| hook := {| messages := []; isLoading := true; error := None;
                     chatHistory := [] |};
          currentTicker := Some "AAPL"%string; lastSources := [];
          initialTicker := None |};
     input := {| input_message := "Analyze Apple stock";
                 showSuggestions := false |} |}.

(** The clock advances by more than a millisecond between a reply and
    the next send, and does not go back during a call. *)
Fixpoint clock_spaced (last : Z) (cs : list Call) : Prop :=
  match cs with
  | [] => True
  | c :: cs' =>
      last < date_now (sent_at (call_env c))
      /\ date_now (sent_at (call_env c)) <= date_now (settled_at (call_env c))
      /\ clock_spaced (date_now (settled_at (call_env c)) + 1) cs'
  end.

End ChatVocabulary.

Section DashboardVocabulary.
Import Js Dashboard.

(** The news a call stores once the news request has settled. *)
Definition news_of (env : RefreshEnv) : list NewsItem :=
  match news_result env with
  | Normal newsData => newsData
  | Throw _ => []
  end.

(** The price map a call stores for the listed entries. *)
Definition prices_of (env : RefreshEnv) (listed : list Analysis)
  : gmap string (option PriceData) :=
  pricesMap (imap (priceResult env) listed).

(** Sample data: a listed analysis, an overview, a price, a headline,
    a failure. *)
Definition listed (t sig : string) : Analysis :=
  {| ticker := t; signal := sig; date := "2025-01-02"; top_reason := None |}.

Definition overview_with (l : list Analysis) : Overview :=
  {| analyses := Some l; signal_distribution := ∅;
     count := Z.of_nat (length l); overview_timestamp := "2025-01-02T10:00:00Z" |}.

Definition quote (p : float) : PriceData :=
  {| price := p; change := 0; change_percent := 0 |}.

Definition headline (n : Z) (t : string) : NewsItem :=
  {| news_id := n; title := "Quarterly results"; url := "https://example.org/n";
     news_source := "wire"; news_ticker := t;
     published_at := "2025-01-02T09:00:00Z" |}.

Definition network_error : JsError :=
  {| message := "Network Error"; status := None |}.

(** Three tickers listed, the second price request fails. *)
Definition env_second_price_fails : RefreshEnv :=
  {| overview_result :=
       Normal (overview_with [listed "AAPL" "BUY"; listed "MSFT" "HOLD";
                              listed "TSLA" "SELL"]);
     price_result := fun i =>
       match i with
       | 1%nat => Throw network_error
       | _ => Normal (quote 100)
       end;
     news_result := Normal [headline 1 "AAPL"] |}.

(** The first load lists two tickers and brings one headline. *)
Definition env_all : RefreshEnv :=
  {| overview_result :=
       Normal (overview_with [listed "AAPL" "BUY"; listed "MSFT" "HOLD"]);
     price_result := fun _ => Normal (quote 100);
     news_result := Normal [headline 1 "AAPL"] |}.

(** No analysis carries the signal asked for: the list is empty. *)
Definition env_none : RefreshEnv :=
  {| overview_result := Normal (overview_with []);
     price_result := fun _ => Throw network_error;
     news_result := Throw network_error |}.

(** The overview filtered on BUY. *)
Definition env_buy : RefreshEnv :=
  {| overview_result := Normal (overview_with [listed "NVDA" "BUY"]);
     price_result := fun _ => Normal (quote 250);
     news_result := Normal [headline 2 "NVDA"] |}.

(** The backend cannot be reached. *)
Definition env_none_reachable : RefreshEnv :=
  {| overview_result := Throw network_error;
     price_result := fun _ => Throw network_error;
     news_result := Throw network_error |}.

(** A call suspended at [p], if any, run to its end. *)
Definition finish_started (env : RefreshEnv) (sp : State * option Pending)
  : State :=
  match sp.2 with
  | Some p => finish env p sp.1
  | None => sp.1
  end.

End DashboardVocabulary.

(** One of the letters A to Z. *)
Definition uppercase_letter (c : ascii) : Prop :=
  (N_of_ascii "A" <= N_of_ascii c <= N_of_ascii "Z")%N.

(** One to five characters, each an uppercase letter. *)
Definition ticker_shaped (s : string) : Prop :=
  (1 <= String.length s <= 5)%nat
  /\ forall c, In c (list_ascii_of_string s) -> uppercase_letter c.

Section ChatVocabularyMore.
Import Js UseChat ChatUI ChatEffects.

(** The reply appended when a request settles. *)
Definition settled_reply (o : completion ChatResponse) (t : Tick) : Message :=
  match o with
  | Normal r => aiMessage r t
  | Throw _ => errorMessage t
  end.

(** The history entries appended when a request settles. *)
Definition settled_history (query : string) (o : completion ChatResponse)
  : list HistoryEntry :=
  match o with
  | Normal r => [ {| role := role_user; entry_content := query |};
                  {| role := role_assistant; entry_content := response r |} ]
  | Throw _ => []
  end.

(** The [error] cell after a request has settled. *)
Definition settled_error (o : completion ChatResponse) (before : option string)
  : option string :=
  match o with
  | Normal _ => before
  | Throw e => Some (message e)
  end.

(** The history entries a whole call leaves. *)
Definition history_of (c : Call) : list HistoryEntry :=
  settled_history (call_query c) (outcome (call_env c)).

(** The sources the panel under the chat should show for a log: those of
    its last assistant message, none without one. *)
Definition shown_sources (msgs : list Message) : list Source :=
  match lastAssistantMessage msgs with
  | Some m => default [] (message_sources m)
  | None => []
  end.

(** Every assistant message of the log has its assistant fields. *)
Definition assistants_complete (msgs : list Message) : Prop :=
  Forall (fun m => is_assistant m = true -> is_Some (details m)) msgs.

(** The sources panel agrees with the log. *)
Definition panel_in_sync (s : Session) : Prop :=
  lastSources s = shown_sources (messages (hook s))
  /\ assistants_complete (messages (hook s)).

(** The states of the chat component: it is mounted, then messages are
    sent, requests settle and the chat is cleared, in any order, the
    effect on [messages] running after each. *)
Inductive chat_reachable (t0 : option string) : Session -> Prop :=
| reach_mount : chat_reachable t0 (mount t0)
| reach_issue s text now :
    chat_reachable t0 s ->
    chat_reachable t0 (syncLastSources (handleSendMessage_issue text now s).1)
| reach_settle s text closed o now :
    chat_reachable t0 s ->
    chat_reachable t0
      (syncLastSources (handleSendMessage_settle text closed o now s).1)
| reach_clear s confirmed :
    chat_reachable t0 s ->
    chat_reachable t0 (syncLastSources (handleClearChat confirmed s)).

End ChatVocabularyMore.

Section DashboardPageVocabulary.
Import Js Dashboard DashboardPage.




End DashboardPageVocabulary.

Section ChatVocabularySends.
Import Js UseChat ChatUI.

(** The history entries a send from the page leaves. *)
Definition send_history (turn : string * CallEnv) : list HistoryEntry :=
  settled_history turn.1 (outcome turn.2).

(** Sends from the page, each awaited before the next; every send is
    made by the handler of the render it happens in. *)
Fixpoint run_sends (turns : list (string * CallEnv)) (s : Session) : Session :=
  match turns with
  | [] => s
  | turn :: rest => run_sends rest (handleSendMessage turn.1 turn.2 s).1
  end.

(** The requests these sends issue, in order. *)
Fixpoint requests_of_sends (turns : list (string * CallEnv)) (s : Session)
  : list ChatRequest :=
  match turns with
  | [] => []
  | turn :: rest =>
      (handleSendMessage_issue turn.1 (sent_at turn.2) s).2
      :: requests_of_sends rest (handleSendMessage turn.1 turn.2 s).1
  end.

End ChatVocabularySends.

(** * Properties *)

(** ** The message log of the chat hook *)

Section ChatLog.
Import Js UseChat.

(** Run a block: unfold the combinators, then the setters. *)
Ltac run_block :=
  cbv [try_finally try_catch mbind mret Eff_bind Eff_ret bind ret throw
       update settled];
  cbv [setMessages setIsLoading setError setChatHistory];
  cbn [messages isLoading error chatHistory fst snd
       sent_at outcome settled_at].

Lemma sendMessage_success captured query ticker structured t1 r t2 s :
  sendMessage captured query ticker structured
    {| sent_at := t1; outcome := Normal r; settled_at := t2 |} s
  = ({| messages := messages s ++ [userMessage query t1] ++ [aiMessage r t2];
        isLoading := false;
        error := None;
        chatHistory :=
          chatHistory s ++ [ {| role := role_user; entry_content := query |};
                             {| role := role_assistant;
                                entry_content := response r |} ] |},
     Normal (aiMessage r t2)).
Proof.
  unfold sendMessage, sendMessage_issue, sendMessage_settle.
  run_block. rewrite <- app_assoc. reflexivity.
Qed.

Lemma sendMessage_failure captured query ticker structured t1 e t2 s :
  sendMessage captured query ticker structured
    {| sent_at := t1; outcome := Throw e; settled_at := t2 |} s
  = ({| messages := messages s ++ [userMessage query t1] ++ [errorMessage t2];
        isLoading := false;
        error := Some (message e);
        chatHistory := chatHistory s |},
     Throw e).
Proof.
  unfold sendMessage, sendMessage_issue, sendMessage_settle.
  run_block. rewrite <- app_assoc. reflexivity.
Qed.

Lemma run_call_messages c s :
  messages (run_call c s) = messages s ++ turn_of c.
Proof.
  destruct c as [captured query ticker structured [t1 o t2]].
  unfold run_call, turn_of, reply_of; cbn [call_captured call_query
    call_ticker call_structured call_env sent_at outcome settled_at].
  destruct o as [r | e].
  - rewrite sendMessage_success. reflexivity.
  - rewrite sendMessage_failure. reflexivity.
Qed.

Lemma run_call_isLoading c s : isLoading (run_call c s) = false.
Proof.
  destruct c as [captured query ticker structured [t1 o t2]].
  unfold run_call; cbn [call_captured call_query call_ticker
    call_structured call_env].
  destruct o as [r | e].
  - rewrite sendMessage_success. reflexivity.
  - rewrite sendMessage_failure. reflexivity.
Qed.

Lemma run_calls_snoc cs c s :
  run_calls (cs ++ [c]) s = run_call c (run_calls cs s).
Proof. unfold run_calls. rewrite foldl_app. reflexivity. Qed.

Lemma run_calls_messages cs s :
  messages (run_calls cs s) = messages s ++ concat (map turn_of cs).
Proof.
  induction cs as [| c cs IH] using rev_ind.
  - cbn. rewrite app_nil_r. reflexivity.
  - rewrite run_calls_snoc, run_call_messages, IH.
    rewrite map_app, concat_app. cbn [map concat].
    rewrite app_nil_r, app_assoc. reflexivity.
Qed.

Lemma length_concat_turns cs :
  length (concat (map turn_of cs)) = (2 * length cs)%nat.
Proof.
  induction cs as [| c cs IH]; cbn [map concat length].
  - reflexivity.
  - rewrite length_app, IH. cbn [turn_of length]. lia.
Qed.

Lemma run_calls_isLoading cs s :
  isLoading s = false -> isLoading (run_calls cs s) = false.
Proof.
  intros Hs. destruct cs as [| c cs _] using rev_ind.
  - exact Hs.
  - rewrite run_calls_snoc. apply run_call_isLoading.
Qed.

(** C1.  Calls of [sendMessage] issued one after the other, each
    awaited before the next: every call appends its user message and
    then one reply, the assistant message or the error message; after
    [N] calls from the initial state the log is the [N] turns in call
    order and has length [2N]; and every call, successful or not,
    leaves [isLoading] false. *)
Theorem sequential_sends_log :
  (forall c s,
      messages (run_call c s)
      = messages s ++ [userMessage (call_query c) (sent_at (call_env c));
                       reply_of c]
      /\ type (userMessage (call_query c) (sent_at (call_env c))) = user
      /\ (type (reply_of c) = assistant \/ type (reply_of c) = error_type)
      /\ isLoading (run_call c s) = false)
  /\ (forall cs,
         messages (run_calls cs initial) = concat (map turn_of cs)
         /\ length (messages (run_calls cs initial)) = (2 * length cs)%nat
         /\ isLoading (run_calls cs initial) = false).
Proof.
  split.
  - intros c s. repeat split.
    + apply run_call_messages.
    + unfold reply_of. destruct (outcome (call_env c)); [left | right]; reflexivity.
    + apply run_call_isLoading.
  - intros cs. rewrite run_calls_messages. cbn [messages initial app].
    repeat split.
    + apply length_concat_turns.
    + apply run_calls_isLoading. reflexivity.
Qed.

(** C3.  A call whose request succeeds extends [chatHistory] by the
    user entry with the query and then the assistant entry with the
    response text; a call whose request fails leaves it as it was. *)
Theorem history_after_turn captured query ticker structured t1 t2 s :
  (forall r,
      chatHistory
        (sendMessage captured query ticker structured
           {| sent_at := t1; outcome := Normal r; settled_at := t2 |} s).1
      = chatHistory s
          ++ [ {| role := role_user; entry_content := query |};
               {| role := role_assistant; entry_content := response r |} ])
  /\ (forall e,
         chatHistory
           (sendMessage captured query ticker structured
              {| sent_at := t1; outcome := Throw e; settled_at := t2 |} s).1
         = chatHistory s).
Proof.
  split.
  - intros r. rewrite sendMessage_success. reflexivity.
  - intros e. rewrite sendMessage_failure. reflexivity.
Qed.

(** C10.  A call whose request fails with [e] appends, after the user
    message, one error message carrying the fixed text, stores
    [e.message] in [error], resets [isLoading], and ends by throwing
    [e] again: the promise it returned rejects with the original
    failure. *)
Theorem failed_send_rethrows captured query ticker structured t1 e t2 s :
  let env := {| sent_at := t1; outcome := Throw e; settled_at := t2 |} in
  let result := sendMessage captured query ticker structured env s in
  result.2 = Throw e
  /\ messages result.1
     = messages s ++ [userMessage query t1; errorMessage t2]
  /\ type (errorMessage t2) = error_type
  /\ content (errorMessage t2) = error_text
  /\ error result.1 = Some (message e)
  /\ isLoading result.1 = false.
Proof.
  cbv zeta. rewrite sendMessage_failure. cbn [fst snd messages error isLoading].
  repeat split.
Qed.

End ChatLog.

(** ** Clearing the chat, and the guard in front of [sendMessage] *)

Section ChatSession.
Import Js UseChat ChatUI.

Lemma handleSendMessage_initialTicker text env s :
  initialTicker (handleSendMessage text env s).1 = initialTicker s.
Proof.
  unfold handleSendMessage, handleSendMessage_issue, sendMessage_issue,
    handleSendMessage_settle, sendMessage_settle, in_hook.
  destruct env as [t1 [r | e] t2];
    cbv [try_finally try_catch mbind mret Eff_bind Eff_ret bind ret throw
         update settled];
    cbn [sent_at outcome settled_at hook setHook fst snd initialTicker].
  - destruct (truthy_opt _ && bool_decide _); reflexivity.
  - reflexivity.
Qed.

(** C7.  Clearing the chat ([handleClearChat] once the user has
    confirmed, which calls [clearMessages]) empties the message log,
    the history and the error, and puts [currentTicker] back to the
    [initialTicker] the component was mounted with, a value no send
    changes; clearing a second time changes nothing. *)
Theorem clear_resets_session :
  (forall h,
      messages (clearMessages h) = []
      /\ chatHistory (clearMessages h) = []
      /\ error (clearMessages h) = None
      /\ clearMessages (clearMessages h) = clearMessages h)
  /\ (forall s,
         let s' := handleClearChat true s in
         messages (hook s') = []
         /\ chatHistory (hook s') = []
         /\ error (hook s') = None
         /\ currentTicker s' = initialTicker s
         /\ initialTicker s' = initialTicker s
         /\ handleClearChat true s' = s')
  /\ (forall t, initialTicker (mount t) = t)
  /\ (forall text env s,
         initialTicker (handleSendMessage text env s).1 = initialTicker s).
Proof.
  split; [| split; [| split]].
  - intros h. repeat split.
  - intros s. cbv zeta. repeat split.
  - reflexivity.
  - apply handleSendMessage_initialTicker.
Qed.

Lemma trim_whitespace_only s : whitespace_only s -> trim s = ""%string.
Proof.
  unfold trim. induction s as [| c s IH]; intros Hws.
  - reflexivity.
  - cbn [trimStart]. rewrite (Hws c) by (left; reflexivity).
    apply IH. intros c' Hc'. apply Hws. right. exact Hc'.
Qed.

Lemma guard_rejects now p :
  isLoading (hook (session p)) = true
  \/ whitespace_only (input_message (input p)) ->
  submit now p = (p, None).
Proof.
  intros H. destruct p as [s inp]. unfold submit, handleSubmit.
  cbn [session input].
  assert (Hguard : truthy (trim (input_message inp))
                   && negb (isLoading (hook s)) = false).
  { destruct H as [Hl | Hw].
    - cbn [session] in Hl. rewrite Hl. apply andb_false_r.
    - cbn [input] in Hw. rewrite (trim_whitespace_only _ Hw). reflexivity. }
  rewrite Hguard. reflexivity.
Qed.

(** C2, as the code has it.  The guard is in [ChatInput.handleSubmit],
    not in [sendMessage]: a submit while [isLoading] is true, or with a
    text that is empty or white space only, changes nothing on the page
    (message log, history, [isLoading], the typed text) and issues no
    request.  [sendMessage] itself, whenever it is called, appends the
    user message, sets [isLoading] and issues the request. *)
Theorem rejected_submit_is_noop now p :
  (isLoading (hook (session p)) = true
   \/ whitespace_only (input_message (input p)) ->
   submit now p = (p, None))
  /\ (forall captured query ticker structured s,
         let issued :=
           sendMessage_issue captured query ticker structured now s in
         messages issued.1 = messages s ++ [userMessage query now]
         /\ isLoading issued.1 = true
         /\ chatHistory issued.1 = chatHistory s
         /\ issued.2 = {| req_query := query; req_ticker := ticker;
                          req_chat_history := captured;
                          req_structured := structured |}).
Proof.
  split.
  - apply guard_rejects.
  - intros captured query ticker structured s. cbv zeta. repeat split.
Qed.

Lemma rejected_submit_is_noop_witness :
  isLoading (hook (session pending_page)) = true
  /\ submit {| date_now := 1000; iso_string := "" |} pending_page
     = (pending_page, None).
Proof.
  split; [reflexivity |].
  apply (rejected_submit_is_noop {| date_now := 1000; iso_string := "" |}
           pending_page).
  left. reflexivity.
Defined.

(** C2, as stated, fails: [sendMessage] itself has no guard.  Called
    while [isLoading] is true and with a text of blanks, it appends the
    user message and issues the request. *)
Lemma sendMessage_is_not_guarded :
  let s := {| messages := []; isLoading := true; error := None;
              chatHistory := [] |} in
  let now := {| date_now := 1000; iso_string := "" |} in
  let after := sendMessage_issue [] "   " None false now s in
  isLoading s = true
  /\ whitespace_only "   "
  /\ messages after.1 = [userMessage "   " now]
  /\ messages after.1 <> messages s
  /\ req_query after.2 = "   "%string.
Proof.
  cbv zeta. repeat split; try discriminate.
  intros c Hc. cbn in Hc.
  destruct Hc as [<- | [<- | [<- | []]]]; reflexivity.
Qed.

Lemma reply_id c : id (reply_of c) = date_now (settled_at (call_env c)) + 1.
Proof. unfold reply_of. destruct (outcome (call_env c)); reflexivity. Qed.

Lemma spaced_ids_sorted cs : forall last,
  clock_spaced last cs ->
  StronglySorted Z.lt (map id (concat (map turn_of cs)))
  /\ Forall (Z.lt last) (map id (concat (map turn_of cs))).
Proof.
  induction cs as [| c cs IH]; intros last Hsp.
  - split; constructor.
  - destruct Hsp as (Hlast & Hcall & Hrest).
    destruct (IH _ Hrest) as [Hsorted Hall].
    cbn [map concat turn_of app]. rewrite reply_id.
    cbn [id userMessage].
    assert (Hlater : Forall (Z.lt (date_now (sent_at (call_env c))))
                       (map id (concat (map turn_of cs)))).
    { eapply Forall_impl; [exact Hall |]. cbn beta. intros; lia. }
    split.
    + constructor; [constructor; assumption |].
      constructor; [lia | exact Hlater].
    + constructor; [exact Hlast |]. constructor; [lia |].
      eapply Forall_impl; [exact Hlater |]. cbn beta. intros; lia.
Qed.

(** What does hold of the ids: with such a clock they increase strictly
    along the log. *)
Lemma ids_increase_when_clock_spaced last cs :
  clock_spaced last cs ->
  StronglySorted Z.lt (map id (messages (run_calls cs initial))).
Proof.
  intros Hsp. rewrite run_calls_messages. cbn [messages initial app].
  apply (spaced_ids_sorted cs last Hsp).
Qed.

(** Outside the form, the page has one more way to [sendMessage]: the
    example buttons, which come back when the chat is cleared.  Cleared
    while a send is pending, the page accepts a click on an example and
    issues a second request with [isLoading] still true. *)
Lemma example_click_while_pending :
  let tick n := {| date_now := n; iso_string := "" |} in
  let typed :=
    {| session := mount None;
       input := {| input_message := "hello"; showSuggestions := false |} |} in
  let sent := submit (tick 1000) typed in
  let cleared := clickClear true sent.1 in
  let clicked := clickExample 1 (tick 2000) cleared in
  isLoading (hook (session sent.1)) = true
  /\ isLoading (hook (session cleared)) = true
  /\ messages (hook (session cleared)) = []
  /\ messages (hook (session clicked.1))
     = [userMessage "Analyze Apple stock" (tick 2000)]
  /\ option_map req_query clicked.2 = Some "Analyze Apple stock"%string.
Proof. cbv zeta. repeat split. Qed.

(** C8: the ids are clock readings.  A first call sent at 1000 whose
    reply arrives at 1250 gives the reply the id 1251; a second call
    sent at 1251 gives its user message the same id. *)
Theorem message_ids_collide :
  let tick n := {| date_now := n; iso_string := "" |} in
  let answer :=
    {| response := "ok"; resp_ticker := None; resp_signal := None;
       resp_confidence := None; resp_sources := None;
       resp_timestamp := ""; resp_intent := None; resp_handler := None;
       context_retrieved := None |} in
  let call q t1 t2 :=
    {| call_captured := []; call_query := q; call_ticker := None;
       call_structured := false;
       call_env := {| sent_at := tick t1; outcome := Normal answer;
                      settled_at := tick t2 |} |} in
  let log := messages (run_calls [call "a" 1000 1250; call "b" 1251 1500]%string
                         initial) in
  map id log = [1000; 1251; 1251; 1501]
  /\ ~ NoDup (map id log).
Proof.
  cbv zeta. split; [reflexivity |].
  intros Hnd. cbn in Hnd.
  apply NoDup_cons in Hnd as [_ Hnd]. apply NoDup_cons in Hnd as [Hin _].
  apply Hin. left.
Qed.

End ChatSession.

(** ** The dashboard refresh *)

Section DashboardRefresh.
Import Js Dashboard.

(** A call that lists at least one entry, run alone from [s]. *)
Lemma fetch_listed env s ov first rest :
  overview_result env = Normal ov ->
  analyses ov = Some (first :: rest) ->
  fetchDashboardData env s
  = {| dashboardData := Some ov;
       prices := prices_of env (first :: rest);
       news := news_of env;
       loading := false;
       error := None;
       signalFilter := signalFilter s |}.
Proof.
  intros Hov Han.
  unfold fetchDashboardData, fetchDashboardData_begin, finish, news_of, prices_of.
  cbn [resume_n fetchDashboardData_resume fst snd].
  rewrite Hov, Han. cbn [fetchDashboardData_resume fst snd].
  destruct (news_result env); reflexivity.
Qed.

(** Resuming keeps [loading] true until the call returns. *)
Lemma resume_keeps_loading env p s :
  loading s = true ->
  (fetchDashboardData_resume env p s).2 <> Returned ->
  loading (fetchDashboardData_resume env p s).1 = true.
Proof.
  intros Hl. destruct p as [limit filter | first rest | t limit days |];
    cbn [fetchDashboardData_resume].
  - destruct (overview_result env) as [ov | e]; [| intros []; reflexivity].
    destruct (analyses ov) as [[| first rest] |]; cbn [fst snd];
      try (intros []; reflexivity).
    intros _. exact Hl.
  - intros _. exact Hl.
  - destruct (news_result env); intros []; reflexivity.
  - intros []. reflexivity.
Qed.

Lemma resume_n_returned env n s :
  resume_n env n (s, Returned) = (s, Returned).
Proof. induction n as [| n IH]; [reflexivity | exact IH]. Qed.

Lemma resume_n_keeps_loading env n sp :
  loading sp.1 = true ->
  (resume_n env n sp).2 <> Returned ->
  loading (resume_n env n sp).1 = true.
Proof.
  revert sp. induction n as [| n IH]; intros [s p] Hl Hp.
  - exact Hl.
  - cbn [resume_n fst snd] in *.
    destruct (fetchDashboardData_resume env p s) as [s1 p1] eqn:E.
    destruct p1 as [limit filter | first rest | t limit days |].
    + apply IH; [| exact Hp].
      replace s1 with (fetchDashboardData_resume env p s).1 by (rewrite E; reflexivity).
      apply resume_keeps_loading; [exact Hl | rewrite E; discriminate].
    + apply IH; [| exact Hp].
      replace s1 with (fetchDashboardData_resume env p s).1 by (rewrite E; reflexivity).
      apply resume_keeps_loading; [exact Hl | rewrite E; discriminate].
    + apply IH; [| exact Hp].
      replace s1 with (fetchDashboardData_resume env p s).1 by (rewrite E; reflexivity).
      apply resume_keeps_loading; [exact Hl | rewrite E; discriminate].
    + rewrite resume_n_returned in Hp. cbn in Hp. contradiction.
Qed.

(** While a call run alone is suspended, the page shows the loader. *)
Lemma suspended_shows_loader env s n :
  let sp := resume_n env n (fetchDashboardData_begin s) in
  sp.2 <> Returned -> render sp.1 = LoaderView.
Proof.
  cbv zeta. intros Hp. unfold render.
  rewrite resume_n_keeps_loading; [reflexivity | reflexivity | exact Hp].
Qed.

(** Every call returns: after the entry at most three awaits remain. *)
Lemma fetch_returns env s :
  (resume_n env 3 (fetchDashboardData_begin s)).2 = Returned.
Proof.
  unfold fetchDashboardData_begin. cbn [resume_n fetchDashboardData_resume fst snd].
  destruct (overview_result env) as [ov | e]; [| reflexivity].
  destruct (analyses ov) as [[| first rest] |]; cbn [fetchDashboardData_resume fst snd];
    try reflexivity.
  destruct (news_result env); reflexivity.
Qed.

Lemma pricesMap_snoc results r :
  pricesMap (results ++ [r]) = <[r.1 := r.2]> (pricesMap results).
Proof. unfold pricesMap. rewrite foldl_app. reflexivity. Qed.

(** With pairwise different tickers, the stored map holds for the entry
    at each index what its own price request gave: the data, or [null]
    when the request failed. *)
Lemma pricesMap_lookup results :
  NoDup (map fst results) ->
  forall i t p, results !! i = Some (t, p) -> pricesMap results !! t = Some p.
Proof.
  induction results as [| [t' p'] results IH] using rev_ind;
    intros Hnd i t p Hi.
  - rewrite lookup_nil in Hi. discriminate.
  - rewrite pricesMap_snoc. cbn [fst snd].
    rewrite map_app in Hnd. apply NoDup_app in Hnd as (Hnd & Hfresh & _).
    destruct (decide (i < length results)%nat) as [Hlt | Hge].
    + rewrite lookup_app_l in Hi by exact Hlt.
      rewrite lookup_insert_ne; [apply (IH Hnd i t p Hi) |].
      intros <-. apply (Hfresh t').
      * apply (list_elem_of_fmap_2 fst results (t', p)).
        apply (list_elem_of_lookup_2 results i). exact Hi.
      * cbn. left.
    + rewrite lookup_app_r in Hi by lia.
      destruct (i - length results)%nat; [| discriminate].
      injection Hi as -> ->. apply lookup_insert_eq.
Qed.

Lemma priceResults_tickers env l k :
  map fst (imap (fun i => priceResult env (k + i)) l) = map ticker l.
Proof.
  revert k. induction l as [| a l IH]; intros k; [reflexivity |].
  cbn [imap map]. f_equal.
  - unfold priceResult. destruct (price_result env _); reflexivity.
  - rewrite <- (IH (S k)). f_equal. apply imap_ext. intros i x _.
    cbn. f_equal. lia.
Qed.

(** A price request that fails never fails the call: with pairwise
    different tickers listed, the call ends without error and the map
    has, for each listed entry, the data of its request or [null]. *)
Lemma price_failures_are_local env s ov first rest :
  overview_result env = Normal ov ->
  analyses ov = Some (first :: rest) ->
  NoDup (map ticker (first :: rest)) ->
  error (fetchDashboardData env s) = None
  /\ forall i a,
       (first :: rest) !! i = Some a ->
       prices (fetchDashboardData env s) !! ticker a
       = Some match price_result env i with
              | Normal priceData => Some priceData
              | Throw _ => None
              end.
Proof.
  intros Hov Han Hnd. rewrite (fetch_listed env s ov first rest Hov Han).
  split; [reflexivity |]. intros i a Hi. cbn [prices]. unfold prices_of.
  apply (pricesMap_lookup _) with (i := i).
  - rewrite <- (priceResults_tickers env (first :: rest) 0) in Hnd. exact Hnd.
  - rewrite list_lookup_imap, Hi. cbn. unfold priceResult.
    destruct (price_result env i); reflexivity.
Qed.

Lemma prices_of_three env a b c pa pc e :
  price_result env 0%nat = Normal pa ->
  price_result env 1%nat = Throw e ->
  price_result env 2%nat = Normal pc ->
  prices_of env [a; b; c]
  = <[ticker c := Some pc]> (<[ticker b := None]> (<[ticker a := Some pa]> ∅)).
Proof.
  intros Ha Hb Hc. unfold prices_of, pricesMap, priceResult.
  cbn [imap foldl compose]. rewrite Ha, Hb, Hc. reflexivity.
Qed.

(** C6.  The overview lists [a], [b], [c] with three different
    tickers; the price request of [b] fails, those of [a] and [c]
    succeed.  The call ends without an error: the stored map has the
    price data of [a] and of [c] and [null] for [b], the error cell is
    empty and the page shows the dashboard, whatever the news request
    does. *)
Theorem price_failure_is_local env s ov a b c pa pc e :
  overview_result env = Normal ov ->
  analyses ov = Some [a; b; c] ->
  NoDup [ticker a; ticker b; ticker c] ->
  price_result env 0%nat = Normal pa ->
  price_result env 1%nat = Throw e ->
  price_result env 2%nat = Normal pc ->
  let s' := fetchDashboardData env s in
  prices s' !! ticker a = Some (Some pa)
  /\ prices s' !! ticker b = Some None
  /\ prices s' !! ticker c = Some (Some pc)
  /\ dashboardData s' = Some ov
  /\ error s' = None
  /\ loading s' = false
  /\ render s'
     = DashboardView [(a, Some (Some pa)); (b, Some None); (c, Some (Some pc))]
         (news_of env) (Some ov).
Proof.
  intros Hov Han Hnd Ha Hb Hc. cbv zeta.
  rewrite (fetch_listed env s ov a [b; c] Hov Han).
  rewrite (prices_of_three env a b c pa pc e Ha Hb Hc).
  apply NoDup_cons in Hnd as [Hab Hnd]. apply NoDup_cons in Hnd as [Hbc _].
  assert (Hab' : ticker a <> ticker b) by (intros E; apply Hab; rewrite E; left).
  assert (Hac : ticker a <> ticker c)
    by (intros E; apply Hab; rewrite E; right; left).
  assert (Hbc' : ticker b <> ticker c) by (intros E; apply Hbc; rewrite E; left).
  assert (La : (<[ticker c := Some pc]> (<[ticker b := None]>
                 (<[ticker a := Some pa]> (∅ : gmap string (option PriceData)))))
               !! ticker a = Some (Some pa)).
  { rewrite lookup_insert_ne by congruence.
    rewrite lookup_insert_ne by congruence. apply lookup_insert_eq. }
  assert (Lb : (<[ticker c := Some pc]> (<[ticker b := None]>
                 (<[ticker a := Some pa]> (∅ : gmap string (option PriceData)))))
               !! ticker b = Some None).
  { rewrite lookup_insert_ne by congruence. apply lookup_insert_eq. }
  assert (Lc : (<[ticker c := Some pc]> (<[ticker b := None]>
                 (<[ticker a := Some pa]> (∅ : gmap string (option PriceData)))))
               !! ticker c = Some (Some pc)) by apply lookup_insert_eq.
  unfold render, cards.
  cbn [prices dashboardData error loading news truthy_opt]. rewrite Han.
  cbn [map]. rewrite La, Lb, Lc. repeat split.
Qed.

Lemma price_failure_is_local_witness :
  let s' := fetchDashboardData env_second_price_fails initial in
  prices s' !! "AAPL"%string = Some (Some (quote 100))
  /\ prices s' !! "MSFT"%string = Some None
  /\ prices s' !! "TSLA"%string = Some (Some (quote 100))
  /\ dashboardData s'
     = Some (overview_with [listed "AAPL" "BUY"; listed "MSFT" "HOLD";
                            listed "TSLA" "SELL"])
  /\ error s' = None
  /\ loading s' = false
  /\ render s'
     = DashboardView [(listed "AAPL" "BUY", Some (Some (quote 100)));
                      (listed "MSFT" "HOLD", Some None);
                      (listed "TSLA" "SELL", Some (Some (quote 100)))]
         (news_of env_second_price_fails)
         (Some (overview_with [listed "AAPL" "BUY"; listed "MSFT" "HOLD";
                               listed "TSLA" "SELL"])).
Proof.
  apply (price_failure_is_local env_second_price_fails initial
           (overview_with [listed "AAPL" "BUY"; listed "MSFT" "HOLD";
                           listed "TSLA" "SELL"])
           (listed "AAPL" "BUY") (listed "MSFT" "HOLD") (listed "TSLA" "SELL")
           (quote 100) (quote 100) network_error); try reflexivity.
  cbn [ticker listed].
  repeat (apply NoDup_cons; split;
          [rewrite ?elem_of_cons, elem_of_nil; intros H;
           repeat (destruct H as [H | H]; [discriminate H |]); exact H |]).
  apply NoDup_nil. exact I.
Defined.

(** C5.  After a first load that lists two entries and brings a
    headline, the page shows the dashboard with its filter selector; the
    filter is set to a signal no analysis has.  The second call stores
    its empty overview and returns without touching [prices] and [news]
    (the branch that sets them is skipped and nothing stands in for it):
    the page then shows the summary and the empty list of the second
    refresh together with the headline of the first. *)
Theorem empty_overview_shows_stale_news :
  let s1 := fetchDashboardData env_all initial in
  let s2 := finish_started env_none (changeFilter "STRONG_SELL" s1) in
  render s1
  = DashboardView [(listed "AAPL" "BUY", Some (Some (quote 100)));
                   (listed "MSFT" "HOLD", Some (Some (quote 100)))]
      [headline 1 "AAPL"]
      (Some (overview_with [listed "AAPL" "BUY"; listed "MSFT" "HOLD"]))
  /\ (changeFilter "STRONG_SELL" s1).2
     = Some (AwaitOverview 10 (Some "STRONG_SELL"%string))
  /\ render s2
     = DashboardView [] [headline 1 "AAPL"] (Some (overview_with []))
  /\ news s2 = news s1
  /\ prices s2 = prices s1.
Proof. cbv zeta. repeat split. Qed.

(** Where the page does show one refresh at a time.  A call run alone,
    from any state:
    - each time it is suspended the page shows the loader, and it
      returns after at most three resumptions;
    - it stores the overview when the overview arrives, before the
      prices and the news, which are still those of the state it started
      from;
    - when the overview lists at least one entry, the state it returns
      in has the overview, the price map and the news of this call, and
      the page shows exactly these;
    - when the overview request fails, the page shows the error and the
      three cells are untouched. *)
Theorem refresh_publishes_behind_loader env s :
  (forall n,
      let sp := resume_n env n (fetchDashboardData_begin s) in
      sp.2 <> Returned -> render sp.1 = LoaderView)
  /\ (resume_n env 3 (fetchDashboardData_begin s)).2 = Returned
  /\ (forall ov first rest,
         overview_result env = Normal ov ->
         analyses ov = Some (first :: rest) ->
         let mid := resume_n env 1 (fetchDashboardData_begin s) in
         let s' := fetchDashboardData env s in
         (dashboardData mid.1 = Some ov
          /\ prices mid.1 = prices s /\ news mid.1 = news s
          /\ mid.2 = AwaitPrices first rest)
         /\ dashboardData s' = Some ov
         /\ prices s' = prices_of env (first :: rest)
         /\ news s' = news_of env
         /\ loading s' = false
         /\ error s' = None
         /\ render s'
            = DashboardView
                (map (fun a => (a, prices_of env (first :: rest) !! ticker a))
                   (first :: rest))
                (news_of env) (Some ov))
  /\ (forall e,
         overview_result env = Throw e ->
         let s' := fetchDashboardData env s in
         render s' = ErrorView load_failed
         /\ dashboardData s' = dashboardData s
         /\ prices s' = prices s
         /\ news s' = news s).
Proof.
  split; [| split; [| split]].
  - apply suspended_shows_loader.
  - apply fetch_returns.
  - intros ov first rest Hov Han. cbv zeta.
    rewrite (fetch_listed env s ov first rest Hov Han).
    unfold fetchDashboardData_begin.
    cbn [resume_n fetchDashboardData_resume fst snd].
    rewrite Hov, Han. unfold render, cards.
    cbn [fst snd dashboardData prices news loading error truthy_opt
         setDashboardData setError setLoading].
    rewrite Han. repeat split.
  - intros e Hov. cbv zeta.
    unfold fetchDashboardData, fetchDashboardData_begin, finish.
    cbn [resume_n fetchDashboardData_resume fst snd]. rewrite Hov.
    repeat split.
Qed.

Lemma refresh_publishes_behind_loader_witness :
  let s' := fetchDashboardData env_buy initial in
  dashboardData s' = Some (overview_with [listed "NVDA" "BUY"])
  /\ prices s' = prices_of env_buy [listed "NVDA" "BUY"]
  /\ news s' = [headline 2 "NVDA"]
  /\ loading s' = false.
Proof.
  destruct (refresh_publishes_behind_loader env_buy initial)
    as (_ & _ & Hdone & _).
  destruct (Hdone (overview_with [listed "NVDA" "BUY"]) (listed "NVDA" "BUY") []
              eq_refl eq_refl)
    as (_ & Hd & Hp & Hn & Hl & _).
  cbv zeta. repeat split; assumption.
Defined.

End DashboardRefresh.

(** ** One refresh at a time *)

Section DashboardOneAtATime.
Import Js Dashboard DashboardPage.











End DashboardOneAtATime.

(** ** The formatting helpers and the ticker check *)

Section HelperValues.
Import Helpers.

Variable parseFloat : string -> float.
Variable toNumber : string -> float.
Variable numberToString : float -> string.

(** [nearest_scaled] rounds to the nearest integer, upwards from the
    middle: for [x = m * 2^e] with [e < 0], the result [n] satisfies
    [x * 10^f - 1/2 < n <= x * 10^f + 1/2]. *)
Lemma nearest_scaled_rounds m e f :
  e < 0 ->
  let n := nearest_scaled m e f in
  let scaled := Z.pos m * 10 ^ Z.of_nat f in
  2 * scaled - 2 ^ (- e) < 2 * 2 ^ (- e) * n <= 2 * scaled + 2 ^ (- e).
Proof.
  intros He. cbv zeta. unfold nearest_scaled.
  destruct (Z.leb_spec 0 e) as [Hle | _]; [lia |].
  assert (Hd : 0 < 2 ^ (- e)) by (apply Z.pow_pos_nonneg; lia).
  pose proof (Z.div_mod (2 * (Z.pos m * 10 ^ Z.of_nat f) + 2 ^ (- e))
                (2 * 2 ^ (- e)) ltac:(lia)) as Hdm.
  pose proof (Z.mod_pos_bound (2 * (Z.pos m * 10 ^ Z.of_nat f) + 2 ^ (- e))
                (2 * 2 ^ (- e)) ltac:(lia)) as Hr.
  lia.
Qed.

Lemma atom_matches_upper c :
  Regex.atom_matches (Regex.CharRange "A" "Z") c = true <-> uppercase_letter c.
Proof.
  unfold Regex.atom_matches, uppercase_letter.
  rewrite andb_true_iff, !N.leb_le. reflexivity.
Qed.

(** The pattern starts with [^]: no match begins after index 0. *)
Lemma ticker_pattern_anchored s :
  Regex.search ticker_pattern false s = false.
Proof. induction s as [| c s IH]; cbn; [reflexivity | exact IH]. Qed.

Lemma ticker_test_at_start s :
  Regex.test ticker_pattern s = Regex.match_at ticker_pattern true s.
Proof.
  unfold Regex.test. destruct s as [| c s]; cbn [Regex.search].
  - apply orb_false_r.
  - rewrite ticker_pattern_anchored. apply orb_false_r.
Qed.

Lemma ticker_match_shaped s :
  Regex.match_at ticker_pattern true s = true <-> ticker_shaped s.
Proof.
  unfold ticker_shaped.
  destruct s as [| c1 [| c2 [| c3 [| c4 [| c5 [| c6 s]]]]]];
    cbn -[Regex.atom_matches];
    rewrite ?andb_true_r, ?andb_false_r, ?orb_false_r, ?andb_true_iff,
      ?atom_matches_upper.
  - split; [discriminate | intros [[H _] _]; lia].
  - split.
    + intros H. split; [lia |]. intros c [<- | []]. exact H.
    + intros [_ H]. apply H. left. reflexivity.
  - split.
    + intros [H1 H2]. split; [lia |].
      intros c [<- | [<- | []]]; assumption.
    + intros [_ H]. split; apply H; cbn; tauto.
  - split.
    + intros (H1 & H2 & H3). split; [lia |].
      intros c [<- | [<- | [<- | []]]]; assumption.
    + intros [_ H]. repeat split; apply H; cbn; tauto.
  - split.
    + intros (H1 & H2 & H3 & H4). split; [lia |].
      intros c [<- | [<- | [<- | [<- | []]]]]; assumption.
    + intros [_ H]. repeat split; apply H; cbn; tauto.
  - split.
    + intros (H1 & H2 & H3 & H4 & H5). split; [lia |].
      intros c [<- | [<- | [<- | [<- | [<- | []]]]]]; assumption.
    + intros [_ H]. repeat split; apply H; cbn; tauto.
  - split; [discriminate | intros [[_ H] _]; lia].
Qed.

#[local] Set Warnings "-inexact-float".

(** C9.  The values of the helpers on the inputs of the specification,
    whatever the runtime's [parseFloat], string-to-number conversion and
    [Number.prototype.toString] are; and [isValidTicker], on a string,
    holds exactly of the strings of one to five letters A to Z. *)
Theorem helper_values :
  formatPercent parseFloat numberToString (JsNumber (-3.456)) = "-3.46%"%string
  /\ formatPercent parseFloat numberToString (JsNumber 0) = "+0.00%"%string
  /\ formatPrice parseFloat numberToString JsNull = "N/A"%string
  /\ formatNumber toNumber numberToString (JsNumber 2500000) = "2.50M"%string
  /\ (forall s,
         isValidTicker numberToString (JsString s) = true <-> ticker_shaped s)
  /\ isValidTicker numberToString (JsString "AAPL") = true
  /\ isValidTicker numberToString (JsString "aapl") = false
  /\ isValidTicker numberToString (JsString "TOOLONG1") = false.
Proof.
  assert (Hstring : forall c s,
             isValidTicker numberToString (JsString (String c s))
             = Regex.match_at ticker_pattern true (String c s)).
  { intros c s. unfold isValidTicker, falsy, toString.
    cbn [Js.truthy negb]. apply ticker_test_at_start. }
  split; [reflexivity |]. split; [reflexivity |]. split; [reflexivity |].
  split; [reflexivity |]. split; [| repeat split].
  intros [| c s].
  - split; [discriminate |]. intros [[Hlen _] _]. cbn in Hlen. lia.
  - rewrite Hstring. apply ticker_match_shaped.
Qed.

End HelperValues.

(** ** How sends, replies and clearing compose *)

Section ChatComposition.
Import Js UseChat ChatUI ChatEffects.

(** Run a block of the hook: the combinators, the setters, the cells. *)
Ltac run_hook :=
  cbv [try_finally try_catch mbind mret Eff_bind Eff_ret bind ret throw
       update settled];
  cbv [setMessages setIsLoading setError setChatHistory];
  cbn [messages isLoading error chatHistory fst snd].

Lemma settle_state query o t s :
  (sendMessage_settle query o t s).1
  = {| messages := messages s ++ [settled_reply o t];
       isLoading := false;
       error := settled_error o (error s);
       chatHistory := chatHistory s ++ settled_history query o |}.
Proof.
  unfold sendMessage_settle. destruct o as [r | e]; run_hook.
  - reflexivity.
  - rewrite app_nil_r. reflexivity.
Qed.

Lemma settle_completion query o t s :
  (sendMessage_settle query o t s).2
  = match o with
    | Normal r => Normal (aiMessage r t)
    | Throw e => Throw e
    end.
Proof. unfold sendMessage_settle. destruct o as [r | e]; reflexivity. Qed.

Lemma run_call_state c s :
  run_call c s
  = {| messages := messages s ++ turn_of c;
       isLoading := false;
       error := settled_error (outcome (call_env c)) None;
       chatHistory := chatHistory s ++ history_of c |}.
Proof.
  destruct c as [captured query ticker structured [t1 o t2]].
  unfold run_call, turn_of, reply_of, history_of.
  cbn [call_captured call_query call_ticker call_structured call_env
       sent_at outcome settled_at].
  destruct o as [r | e].
  - rewrite sendMessage_success. reflexivity.
  - rewrite sendMessage_failure. cbn [fst settled_history].
    rewrite app_nil_r. reflexivity.
Qed.

(** Two calls in flight at once.  Whatever order the two requests settle
    in, no update is lost: the log gains the two user messages in the
    order of the calls and then the two replies in the order of
    settling, and the history gains the entries of both.  But
    [isLoading] is false as soon as the first of them has settled, while
    the other is still in flight. *)
Theorem overlapping_sends_keep_all
    captured1 query1 ticker1 structured1 now1
    captured2 query2 ticker2 structured2 now2
    queryA oA tA queryB oB tB s :
  let s1 := (sendMessage_issue captured1 query1 ticker1 structured1 now1 s).1 in
  let s2 := (sendMessage_issue captured2 query2 ticker2 structured2 now2 s1).1 in
  let s3 := (sendMessage_settle queryA oA tA s2).1 in
  let s4 := (sendMessage_settle queryB oB tB s3).1 in
  messages s4
  = messages s ++ [userMessage query1 now1; userMessage query2 now2;
                   settled_reply oA tA; settled_reply oB tB]
  /\ chatHistory s4
     = chatHistory s ++ settled_history queryA oA ++ settled_history queryB oB
  /\ isLoading s2 = true
  /\ isLoading s3 = false.
Proof.
  cbv zeta. rewrite !settle_state. unfold sendMessage_issue.
  cbv [setMessages setIsLoading setError].
  cbn [fst messages isLoading error chatHistory].
  rewrite <- !app_assoc. repeat split.
Qed.

(** Clearing the chat does not cancel a call in flight: [isLoading]
    stays true, and when the request settles its reply lands in the
    emptied log, without the user message it answers, and a successful
    turn is entered in the emptied history. *)
Theorem clear_does_not_cancel captured query ticker structured now o t s :
  let s1 := (sendMessage_issue captured query ticker structured now s).1 in
  let s2 := clearMessages s1 in
  let s3 := (sendMessage_settle query o t s2).1 in
  isLoading s2 = true
  /\ messages s3 = [settled_reply o t]
  /\ chatHistory s3 = settled_history query o
  /\ error s3 = settled_error o None
  /\ isLoading s3 = false.
Proof. cbv zeta. rewrite settle_state. repeat split. Qed.

Lemma in_hook_settle text o now s :
  in_hook (sendMessage_settle text o now) s
  = (setHook (sendMessage_settle text o now (hook s)).1 s,
     (sendMessage_settle text o now (hook s)).2).
Proof.
  unfold in_hook. destruct (sendMessage_settle text o now (hook s)).
  reflexivity.
Qed.

Lemma handleSendMessage_settle_state text closed o now s :
  handleSendMessage_settle text closed o now s
  = (let s1 := setHook (sendMessage_settle text o now (hook s)).1 s in
     match o with
     | Normal r =>
         if truthy_opt (resp_ticker r)
            && bool_decide (resp_ticker r ≠ closed)
         then setCurrentTicker (resp_ticker r) s1
         else s1
     | Throw _ => s1
     end,
     Normal tt).
Proof.
  unfold handleSendMessage_settle.
  cbv [try_catch mbind mret Eff_bind Eff_ret bind ret update].
  rewrite in_hook_settle, settle_completion.
  destruct o as [r | e]; [| reflexivity].
  cbn [message_ticker aiMessage details ticker].
  destruct (truthy_opt (resp_ticker r) && bool_decide (resp_ticker r ≠ closed));
    reflexivity.
Qed.

Lemma handleSendMessage_history text env s :
  chatHistory (hook (handleSendMessage text env s).1)
  = chatHistory (hook s) ++ settled_history text (outcome env).
Proof.
  unfold handleSendMessage, handleSendMessage_issue, sendMessage_issue.
  cbn [fst snd]. rewrite handleSendMessage_settle_state. cbn [fst].
  assert (Hh : forall s1 : Session,
             hook s1 = (sendMessage_settle text (outcome env) (settled_at env)
                          (setError None (setIsLoading true
                             (setMessages (fun prev => prev ++ [userMessage text (sent_at env)])
                                (hook s))))).1 ->
             chatHistory (hook s1)
             = chatHistory (hook s) ++ settled_history text (outcome env)).
  { intros s1 ->. rewrite settle_state. reflexivity. }
  destruct (outcome env) as [r | e]; [| apply Hh; reflexivity].
  destruct (truthy_opt (resp_ticker r)
            && bool_decide (resp_ticker r ≠ currentTicker s));
    apply Hh; reflexivity.
Qed.

Lemma requests_of_sends_context : forall turns s k text env,
  turns !! k = Some (text, env) ->
  exists req,
    requests_of_sends turns s !! k = Some req
    /\ req_query req = text
    /\ req_chat_history req
       = chatHistory (hook s) ++ concat (map send_history (take k turns)).
Proof.
  induction turns as [| turn turns IH]; intros s k text env Hk.
  - rewrite lookup_nil in Hk. discriminate.
  - destruct k as [| k].
    + cbn in Hk. injection Hk as ->.
      eexists. split; [reflexivity |]. cbn. rewrite app_nil_r. tauto.
    + cbn [lookup list_lookup] in Hk.
      destruct (IH (handleSendMessage turn.1 turn.2 s).1 k text env Hk)
        as (req & Hreq & Hq & Hctx).
      exists req. split; [exact Hreq |]. split; [exact Hq |].
      rewrite Hctx, handleSendMessage_history.
      cbn [take map concat]. unfold send_history at 2.
      rewrite app_assoc. reflexivity.
Qed.

(** After any sequence of awaited calls the history is the one before
    followed by the user and assistant entries of exactly the calls that
    succeeded, in call order, and [error] tells about the last call
    only: its failure message, or [null] when it succeeded.  When the
    sends are made from the page, each awaited before the next, the
    request of each send carries as [chat_history] the history before
    the first send followed by the entries of the earlier sends that
    succeeded: a failed send leaves nothing in the context sent with
    later requests. *)
Theorem history_keeps_successful_turns cs s :
  chatHistory (run_calls cs s) = chatHistory s ++ concat (map history_of cs)
  /\ (forall c,
         error (run_calls (cs ++ [c]) s)
         = settled_error (outcome (call_env c)) None)
  /\ (forall turns (page : Session) k text env,
         turns !! k = Some (text, env) ->
         exists req,
           requests_of_sends turns page !! k = Some req
           /\ req_query req = text
           /\ req_chat_history req
              = chatHistory (hook page)
                  ++ concat (map send_history (take k turns))).
Proof.
  split; [| split].
  - induction cs as [| c cs IH] using rev_ind.
    + cbn. rewrite app_nil_r. reflexivity.
    + rewrite run_calls_snoc, run_call_state. cbn [chatHistory]. rewrite IH.
      rewrite map_app, concat_app. cbn [map concat].
      rewrite app_nil_r, app_assoc. reflexivity.
  - intros c. rewrite run_calls_snoc, run_call_state. reflexivity.
  - apply requests_of_sends_context.
Qed.

(** [handleSendMessage] never rejects: the failure [sendMessage] throws
    again is caught and only logged.  The hook ends in the state
    [sendMessage] leaves, and [currentTicker] becomes the ticker of the
    response when the request succeeded with a non-empty ticker, and is
    otherwise what it was. *)
Theorem handleSendMessage_absorbs_failure text env s :
  let result := handleSendMessage text env s in
  result.2 = Normal tt
  /\ hook result.1
     = (sendMessage (chatHistory (hook s)) text (currentTicker s) false env
          (hook s)).1
  /\ currentTicker result.1
     = match outcome env with
       | Normal r =>
           if truthy_opt (resp_ticker r) then resp_ticker r
           else currentTicker s
       | Throw _ => currentTicker s
       end
  /\ lastSources result.1 = lastSources s.
Proof.
  cbv zeta. unfold handleSendMessage, handleSendMessage_issue, sendMessage.
  destruct (sendMessage_issue (chatHistory (hook s)) text (currentTicker s)
              false (sent_at env) (hook s)) as [h req] eqn:Hissue.
  rewrite handleSendMessage_settle_state.
  cbn [fst snd hook setHook currentTicker lastSources].
  destruct (outcome env) as [r | e].
  - destruct (truthy_opt (resp_ticker r)) eqn:Ht; cbn [andb].
    + destruct (bool_decide (resp_ticker r ≠ currentTicker s)) eqn:Hd;
        cbn [hook setHook setCurrentTicker currentTicker lastSources];
        repeat split.
      apply bool_decide_eq_false in Hd. apply dec_stable in Hd.
      symmetry. exact Hd.
    + cbn [hook setHook currentTicker lastSources]. repeat split.
  - cbn [hook setHook currentTicker lastSources]. repeat split.
Qed.

(** *** The sources panel *)

Lemma lastAssistantMessage_snoc msgs m :
  lastAssistantMessage (msgs ++ [m])
  = if is_assistant m then Some m else lastAssistantMessage msgs.
Proof.
  unfold lastAssistantMessage. rewrite rev_app_distr. reflexivity.
Qed.

Lemma lastAssistantMessage_found msgs m :
  lastAssistantMessage msgs = Some m -> In m msgs /\ is_assistant m = true.
Proof.
  unfold lastAssistantMessage. intros H. apply find_some in H as [Hin Ha].
  split; [apply in_rev; exact Hin | exact Ha].
Qed.

Lemma sync_restores s :
  assistants_complete (messages (hook s)) ->
  (lastAssistantMessage (messages (hook s)) = None -> lastSources s = []) ->
  panel_in_sync (syncLastSources s).
Proof.
  intros Hc Hnone. unfold panel_in_sync, syncLastSources, shown_sources.
  destruct (lastAssistantMessage (messages (hook s))) as [m |] eqn:Hlast.
  - apply lastAssistantMessage_found in Hlast as Hm. destruct Hm as [Hin Ha].
    destruct (proj1 (Forall_forall _ _) Hc m
                ltac:(apply list_elem_of_In; exact Hin) Ha) as [d Hd].
    unfold message_sources. rewrite Hd.
    cbn [hook setLastSources lastSources]. rewrite Hlast.
    unfold message_sources. rewrite Hd. split; [reflexivity | exact Hc].
  - rewrite Hlast. split; [apply Hnone; reflexivity | exact Hc].
Qed.

Lemma panel_none s :
  panel_in_sync s ->
  lastAssistantMessage (messages (hook s)) = None -> lastSources s = [].
Proof.
  intros [Hl _] Hnone. rewrite Hl. unfold shown_sources. rewrite Hnone.
  reflexivity.
Qed.

Lemma complete_snoc msgs m :
  assistants_complete msgs ->
  (is_assistant m = true -> is_Some (details m)) ->
  assistants_complete (msgs ++ [m]).
Proof.
  intros Hc Hm. unfold assistants_complete. apply Forall_app. split.
  - exact Hc.
  - constructor; [exact Hm | constructor].
Qed.

Lemma settled_reply_complete o t :
  is_assistant (settled_reply o t) = true -> is_Some (details (settled_reply o t)).
Proof. destruct o as [r | e]; cbn; [eauto | discriminate]. Qed.

(** In every state of the chat component the sources panel holds the
    sources of the last assistant message of the log, and nothing when
    the log has none: a failed turn keeps the sources of the answer
    before it, a cleared chat shows none, and a reply that arrives after
    a clearing brings its sources back. *)
Theorem sources_follow_last_assistant t0 s :
  chat_reachable t0 s ->
  lastSources s = shown_sources (messages (hook s))
  /\ assistants_complete (messages (hook s)).
Proof.
  intros Hr. change (panel_in_sync s).
  induction Hr as [| s text now Hr IH | s text closed o now Hr IH
                  | s confirmed Hr IH].
  - split; [reflexivity | constructor].
  - destruct IH as [Hl Hc]. apply sync_restores.
    + unfold handleSendMessage_issue, sendMessage_issue.
      cbn [fst hook setHook messages setError setIsLoading setMessages].
      apply complete_snoc; [exact Hc | discriminate].
    + unfold handleSendMessage_issue, sendMessage_issue.
      cbn [fst hook setHook messages setError setIsLoading setMessages
           lastSources].
      rewrite lastAssistantMessage_snoc. cbn [is_assistant userMessage type].
      apply panel_none. split; assumption.
  - destruct IH as [Hl Hc]. apply sync_restores.
    + rewrite handleSendMessage_settle_state. cbn [fst].
      assert (Hh : assistants_complete
                     (messages (sendMessage_settle text o now (hook s)).1)).
      { rewrite settle_state. cbn [messages].
        apply complete_snoc; [exact Hc | apply settled_reply_complete]. }
      destruct o as [r | e]; [| exact Hh].
      destruct (truthy_opt (resp_ticker r) && bool_decide (resp_ticker r ≠ closed));
        exact Hh.
    + rewrite handleSendMessage_settle_state. cbn [fst].
      assert (Hh : lastAssistantMessage
                     (messages (sendMessage_settle text o now (hook s)).1) = None
                   -> lastSources s = []).
      { rewrite settle_state. cbn [messages].
        rewrite lastAssistantMessage_snoc.
        destruct (is_assistant (settled_reply o now)); [discriminate |].
        apply panel_none. split; assumption. }
      destruct o as [r | e]; [| exact Hh].
      destruct (truthy_opt (resp_ticker r) && bool_decide (resp_ticker r ≠ closed));
        exact Hh.
  - destruct confirmed.
    + apply sync_restores; [constructor | reflexivity].
    + cbn [handleClearChat]. apply sync_restores.
      * apply IH.
      * apply panel_none. exact IH.
Qed.

Lemma sources_follow_last_assistant_witness :
  let tick n := {| date_now := n; iso_string := "" |} in
  let source :=
    {| source_title := "Results"; source_url := "https://example.org/r";
       source_name := None; source_published_at := None;
       source_ticker := None |} in
  let answer :=
    {| response := "ok"; resp_ticker := None; resp_signal := None;
       resp_confidence := None; resp_sources := Some [source];
       resp_timestamp := ""; resp_intent := None; resp_handler := None;
       context_retrieved := None |} in
  let s1 := syncLastSources
              (handleSendMessage_issue "hello" (tick 1000) (mount None)).1 in
  let s2 := syncLastSources
              (handleSendMessage_settle "hello" None (Normal answer)
                 (tick 1200) s1).1 in
  lastSources s2 = [source]
  /\ lastSources s2 = shown_sources (messages (hook s2)).
Proof.
  cbv zeta. split; [reflexivity |].
  apply (sources_follow_last_assistant None).
  apply reach_settle. apply reach_issue. apply reach_mount.
Defined.

(** *** The form *)

Lemma trimStart_empty s : trimStart s = ""%string -> whitespace_only s.
Proof.
  induction s as [| c s IH]; cbn [trimStart]; intros H c' Hc'.
  - destruct Hc'.
  - destruct (is_whitespace c) eqn:Hc; [| discriminate H].
    destruct Hc' as [<- | Hc']; [exact Hc | apply (IH H c' Hc')].
Qed.

Lemma trimStart_head s c s' :
  trimStart s = String c s' -> is_whitespace c = false.
Proof.
  induction s as [| d s IH]; cbn [trimStart]; intros H; [discriminate H |].
  destruct (is_whitespace d) eqn:Hd; [apply IH; exact H |].
  injection H as <- _. exact Hd.
Qed.

Lemma trimEnd_empty s : trimEnd s = ""%string -> whitespace_only s.
Proof.
  induction s as [| c s IH]; cbn [trimEnd]; intros H c' Hc'.
  - destruct Hc'.
  - destruct (trimEnd s) as [| d k] eqn:Hk; [| discriminate H].
    destruct (is_whitespace c) eqn:Hc; [| discriminate H].
    destruct Hc' as [<- | Hc']; [exact Hc | apply (IH eq_refl c' Hc')].
Qed.

Lemma trimEnd_head c s :
  is_whitespace c = false -> exists k, trimEnd (String c s) = String c k.
Proof.
  intros Hc. cbn [trimEnd]. destruct (trimEnd s) as [| d k].
  - rewrite Hc. eauto.
  - eauto.
Qed.

Lemma trimEnd_idempotent s : trimEnd (trimEnd s) = trimEnd s.
Proof.
  induction s as [| c s IH]; [reflexivity |]. cbn [trimEnd].
  destruct (trimEnd s) as [| d k] eqn:Hk.
  - destruct (is_whitespace c) eqn:Hc; [reflexivity |].
    cbn [trimEnd]. rewrite Hc. reflexivity.
  - cbn [trimEnd] in *. rewrite IH. reflexivity.
Qed.

Lemma trim_empty s : trim s = ""%string <-> whitespace_only s.
Proof.
  split; [| apply trim_whitespace_only].
  unfold trim. intros H. apply trimEnd_empty in H.
  apply trimStart_empty. destruct (trimStart s) as [| c k] eqn:Hs;
    [reflexivity |].
  apply trimStart_head in Hs. rewrite (H c) in Hs by (left; reflexivity).
  discriminate Hs.
Qed.

Lemma trim_idempotent s : trim (trim s) = trim s.
Proof.
  unfold trim. destruct (trimStart s) as [| c k] eqn:Hs; [reflexivity |].
  apply trimStart_head in Hs.
  destruct (trimEnd_head c k Hs) as [k' Hk]. rewrite Hk.
  cbn [trimStart]. rewrite Hs, <- Hk. apply trimEnd_idempotent.
Qed.

Lemma truthy_nonempty s : truthy s = true <-> s <> ""%string.
Proof. destruct s; cbn; split; congruence. Qed.

(** A submit of the form issues a request exactly when no call is
    pending and the typed text is not blank.  The request then carries
    the typed text without the white space around it (so never an empty
    or padded query), the current ticker and the whole history; the log
    gains the user message with that text and the box is emptied. *)
Theorem submit_sends_trimmed_text now p :
  let typed := input_message (input p) in
  let result := submit now p in
  (is_Some result.2
   <-> isLoading (hook (session p)) = false /\ ~ whitespace_only typed)
  /\ (forall req,
         result.2 = Some req ->
         req = {| req_query := trim typed;
                  req_ticker := currentTicker (session p);
                  req_chat_history := chatHistory (hook (session p));
                  req_structured := false |}
         /\ trim (req_query req) = req_query req
         /\ req_query req <> ""%string
         /\ input result.1 = {| input_message := ""; showSuggestions := false |}
         /\ messages (hook (session result.1))
            = messages (hook (session p)) ++ [userMessage (trim typed) now]).
Proof.
  cbv zeta. destruct p as [s inp]. unfold submit, handleSubmit.
  cbn [session input].
  destruct (truthy (trim (input_message inp))) eqn:Ht.
  - apply truthy_nonempty in Ht as Hne.
    destruct (isLoading (hook s)) eqn:Hl; cbn [andb negb fst snd].
    + split; [| intros req H; discriminate H].
      split; [intros [x Hx]; discriminate Hx | intros [H _]; discriminate H].
    + split.
      * split; [| eauto]. intros _. split; [reflexivity |].
        intros Hw. apply Hne. apply trim_whitespace_only. exact Hw.
      * intros req Hreq. injection Hreq as <-.
        unfold handleSendMessage_issue, sendMessage_issue.
        cbn [fst snd req_query session input hook setHook messages
             setError setIsLoading setMessages].
        rewrite trim_idempotent. repeat split. exact Hne.
  - cbn [andb fst snd]. split; [| intros req H; discriminate H].
    split; [intros [x Hx]; discriminate Hx |].
    intros [_ Hw]. exfalso. apply Hw. apply trim_empty.
    destruct (trim (input_message inp)); [reflexivity | discriminate Ht].
Qed.

(** The example buttons are rendered whenever the log is empty and send
    without looking at [isLoading].  So after a first send from the
    form, a confirmed click on Clear while that call is pending brings
    them back, and a click on one of them issues a second request while
    the first is still in flight. *)
Theorem example_buttons_ignore_pending t0 typed now1 now2 i text :
  truthy (trim (input_message typed)) = true ->
  examples !! i = Some text ->
  let sent := submit now1 {| session := mount t0; input := typed |} in
  let cleared := clickClear true sent.1 in
  let clicked := clickExample i now2 cleared in
  is_Some sent.2
  /\ isLoading (hook (session cleared)) = true
  /\ messages (hook (session cleared)) = []
  /\ clicked.2 = Some {| req_query := text; req_ticker := t0;
                         req_chat_history := []; req_structured := false |}
  /\ messages (hook (session clicked.1)) = [userMessage text now2]
  /\ isLoading (hook (session clicked.1)) = true.
Proof.
  intros Ht Hex. cbv zeta. unfold submit, handleSubmit.
  cbn [session input mount hook UseChat.initial isLoading negb].
  rewrite Ht. cbn [andb].
  unfold handleSendMessage_issue, sendMessage_issue, clickClear, clickExample.
  cbn [fst snd session input hook setHook messages setError setIsLoading
       setMessages app handleClearChat clearMessages setChatHistory
       setLastSources setCurrentTicker currentTicker initialTicker
       isLoading chatHistory].
  rewrite Hex.
  cbn [fst snd session input hook setHook messages setError setIsLoading
       setMessages app currentTicker initialTicker isLoading chatHistory].
  repeat split. eauto.
Qed.

Lemma example_buttons_ignore_pending_witness :
  let tick n := {| date_now := n; iso_string := "" |} in
  let typed := {| input_message := "hello"; showSuggestions := false |} in
  let sent := submit (tick 1000) {| session := mount None; input := typed |} in
  let clicked := clickExample 2 (tick 2000) (clickClear true sent.1) in
  clicked.2 = Some {| req_query := "Should I buy Tesla?"; req_ticker := None;
                      req_chat_history := []; req_structured := false |}.
Proof.
  cbv zeta.
  apply (example_buttons_ignore_pending None
           {| input_message := "hello"; showSuggestions := false |}
           {| date_now := 1000; iso_string := "" |}
           {| date_now := 2000; iso_string := "" |}
           2 "Should I buy Tesla?" eq_refl eq_refl).
Defined.

(** A clock that advances by 200 ms during each call and by 300 ms
    between a reply and the next send. *)
Lemma ids_increase_when_clock_spaced_witness :
  let tick n := {| date_now := n; iso_string := "" |} in
  let call q t1 t2 :=
    {| call_captured := []; call_query := q; call_ticker := None;
       call_structured := false;
       call_env := {| sent_at := tick t1;
                      outcome := Throw {| message := "Network Error";
                                          status := None |};
                      settled_at := tick t2 |} |} in
  StronglySorted Z.lt
    (map id (messages (run_calls [call "a" 1000 1200; call "b" 1500 1700]%string
                         initial))).
Proof.
  cbv zeta. apply (ids_increase_when_clock_spaced 0).
  cbn. lia.
Defined.

End ChatComposition.

(** ** More on the dashboard refresh *)

Section DashboardMore.
Import Js Dashboard.

(** The last write for a ticker is the one the map keeps. *)
Lemma pricesMap_lookup_last results : forall i t p,
  results !! i = Some (t, p) ->
  (forall j q, (i < j)%nat -> results !! j = Some q -> q.1 <> t) ->
  pricesMap results !! t = Some p.
Proof.
  induction results as [| x results IH] using rev_ind; intros i t p Hi Hlater.
  - rewrite lookup_nil in Hi. discriminate.
  - rewrite pricesMap_snoc.
    destruct (decide (i < length results)%nat) as [Hlt | Hge].
    + rewrite lookup_app_l in Hi by exact Hlt.
      rewrite lookup_insert_ne.
      * apply (IH i t p Hi). intros j q Hij Hj.
        apply (Hlater j q Hij). rewrite lookup_app_l; [exact Hj |].
        apply lookup_lt_Some in Hj. exact Hj.
      * apply (Hlater (length results) x Hlt).
        rewrite lookup_app_r by lia. rewrite Nat.sub_diag. reflexivity.
    + rewrite lookup_app_r in Hi by lia.
      destruct (i - length results)%nat; [| discriminate].
      injection Hi as ->. apply lookup_insert_eq.
Qed.

(** The map has an entry exactly for the tickers written. *)
Lemma pricesMap_entries results t :
  is_Some (pricesMap results !! t) <-> t ∈ map fst results.
Proof.
  induction results as [| x results IH] using rev_ind.
  - cbn. rewrite lookup_empty, elem_of_nil. split; [intros [? ?]; discriminate | tauto].
  - rewrite pricesMap_snoc, map_app, elem_of_app. cbn [map].
    rewrite list_elem_of_singleton.
    destruct (decide (x.1 = t)) as [-> | Hne].
    + rewrite lookup_insert_eq. split; [intros _; right; reflexivity | eauto].
    + rewrite lookup_insert_ne by exact Hne. rewrite IH.
      split; [tauto | intros [H | H]; [exact H | congruence]].
Qed.

(** The price map after a refresh that lists entries, none of them under
    the ticker ["__proto__"] (which a JS object does not keep as a
    property): it is built anew, with an own entry exactly for the
    tickers listed, so a ticker listed before and no longer has none;
    and the entry of a ticker holds what the request of the last listed
    entry with that ticker gave, its data or [null] when it failed.
    Tickers need not differ. *)
Theorem price_map_entries env s ov first rest :
  overview_result env = Normal ov ->
  analyses ov = Some (first :: rest) ->
  "__proto__"%string ∉ map ticker (first :: rest) ->
  let s' := fetchDashboardData env s in
  (forall t, is_Some (prices s' !! t) <-> t ∈ map ticker (first :: rest))
  /\ (forall i a,
         (first :: rest) !! i = Some a ->
         (forall j b, (i < j)%nat -> (first :: rest) !! j = Some b ->
                      ticker b <> ticker a) ->
         prices s' !! ticker a = Some (priceResult env i a).2).
Proof.
  intros Hov Han _. cbv zeta.
  rewrite (fetch_listed env s ov first rest Hov Han). cbn [prices].
  unfold prices_of. split.
  - intros t. rewrite pricesMap_entries.
    rewrite <- (priceResults_tickers env (first :: rest) 0). reflexivity.
  - intros i a Hi Hlater.
    assert (Hfst : forall k b, (priceResult env k b).1 = ticker b).
    { intros k b. unfold priceResult. destruct (price_result env k); reflexivity. }
    apply (pricesMap_lookup_last _ i).
    + rewrite list_lookup_imap, Hi. cbn [fmap option_fmap option_map].
      rewrite <- (Hfst i a). destruct (priceResult env i a); reflexivity.
    + intros j q Hij Hj. rewrite list_lookup_imap in Hj.
      destruct ((first :: rest) !! j) as [b |] eqn:Hb; [| discriminate Hj].
      cbn in Hj. injection Hj as <-. rewrite Hfst.
      apply (Hlater j b Hij Hb).
Qed.

Lemma price_map_entries_witness :
  let s' := fetchDashboardData env_second_price_fails initial in
  (forall t, is_Some (prices s' !! t)
             <-> t ∈ ["AAPL"; "MSFT"; "TSLA"]%string)
  /\ prices s' !! "MSFT"%string = Some None.
Proof.
  destruct (price_map_entries env_second_price_fails initial
              (overview_with [listed "AAPL" "BUY"; listed "MSFT" "HOLD";
                              listed "TSLA" "SELL"])
              (listed "AAPL" "BUY") [listed "MSFT" "HOLD"; listed "TSLA" "SELL"]
              eq_refl eq_refl) as [Hdom Hlast].
  { cbn [map ticker listed]. rewrite !elem_of_cons, elem_of_nil.
    intros [H | [H | [H | []]]]; discriminate H. }
  cbv zeta. split; [exact Hdom |].
  apply (Hlast 1%nat (listed "MSFT" "HOLD") eq_refl).
  intros [| [| [| j]]] b Hij Hb; try lia; [| discriminate Hb].
  injection Hb as <-. discriminate.
Defined.

(** A refresh whose overview lists nothing (an empty or missing
    [analyses]) stores the overview and touches neither [prices] nor
    [news]: the page then shows no card, the news of the refresh before
    and the new summary. *)
Theorem empty_overview_keeps_stale env s ov :
  overview_result env = Normal ov ->
  analyses ov = Some [] \/ analyses ov = None ->
  let s' := fetchDashboardData env s in
  dashboardData s' = Some ov
  /\ prices s' = prices s
  /\ news s' = news s
  /\ loading s' = false
  /\ error s' = None
  /\ render s' = DashboardView [] (news s) (Some ov).
Proof.
  intros Hov Han. cbv zeta.
  unfold fetchDashboardData, fetchDashboardData_begin, finish.
  cbn [resume_n fetchDashboardData_resume fst snd]. rewrite Hov.
  unfold render, cards.
  destruct Han as [Han | Han]; rewrite Han;
    cbn [resume_n fetchDashboardData_resume fst snd dashboardData prices news
         loading error setLoading setDashboardData setError truthy_opt];
    rewrite Han; repeat split.
Qed.

Lemma empty_overview_keeps_stale_witness :
  let s := fetchDashboardData env_all initial in
  let s' := fetchDashboardData env_none s in
  news s' = [headline 1 "AAPL"]
  /\ render s' = DashboardView [] [headline 1 "AAPL"] (Some (overview_with [])).
Proof.
  destruct (empty_overview_keeps_stale env_none
              (fetchDashboardData env_all initial) (overview_with [])
              eq_refl (or_introl eq_refl))
    as (_ & _ & Hn & _ & _ & Hr).
  cbv zeta. split; [exact Hn | exact Hr].
Defined.

(** The error of a failed load does not stick.  A refresh whose overview
    request fails shows the error page, which offers the retry, and keeps
    the stored snapshot; the next refresh clears the error when it
    starts, and if its overview lists entries the page shows the
    dashboard with its snapshot. *)
Theorem retry_recovers env1 env2 s e ov first rest :
  overview_result env1 = Throw e ->
  overview_result env2 = Normal ov ->
  analyses ov = Some (first :: rest) ->
  let s1 := fetchDashboardData env1 s in
  let s2 := fetchDashboardData env2 s1 in
  render s1 = ErrorView load_failed
  /\ offers_refresh (render s1) = true
  /\ (dashboardData s1, prices s1, news s1) = (dashboardData s, prices s, news s)
  /\ error (fetchDashboardData_begin s1).1 = None
  /\ error s2 = None
  /\ render s2
     = DashboardView
         (map (fun a => (a, prices_of env2 (first :: rest) !! ticker a))
            (first :: rest))
         (news_of env2) (Some ov).
Proof.
  intros Hfail Hov Han. cbv zeta.
  rewrite (fetch_listed env2 _ ov first rest Hov Han).
  unfold fetchDashboardData, fetchDashboardData_begin, finish.
  cbn [resume_n fetchDashboardData_resume fst snd]. rewrite Hfail.
  unfold render, cards.
  cbn [resume_n fetchDashboardData_resume fst snd dashboardData prices news
       loading error setLoading setDashboardData setError truthy_opt].
  rewrite Han. repeat split.
Qed.

Lemma retry_recovers_witness :
  let s1 := fetchDashboardData env_none_reachable initial in
  let s2 := fetchDashboardData env_buy s1 in
  render s1 = ErrorView load_failed /\ error s2 = None.
Proof.
  destruct (retry_recovers env_none_reachable env_buy initial network_error
              (overview_with [listed "NVDA" "BUY"]) (listed "NVDA" "BUY") []
              eq_refl eq_refl eq_refl) as (H1 & _ & _ & _ & H2 & _).
  cbv zeta. split; [exact H1 | exact H2].
Defined.

(** Selecting a filter.  The value of the selector becomes the filter,
    the empty value standing for no filter.  Selecting the filter in
    force changes nothing and starts no refresh; selecting another one
    starts one refresh, whose overview request asks for 10 entries with
    the filter just selected, and leaves the stored snapshot as it is
    until answers arrive. *)
Theorem filter_change_refetches value s :
  let f := if truthy value then Some value else None in
  let result := changeFilter value s in
  (f = signalFilter s -> result = (s, None))
  /\ (f <> signalFilter s ->
      result.2 = Some (AwaitOverview 10 f)
      /\ signalFilter result.1 = f
      /\ loading result.1 = true
      /\ error result.1 = None
      /\ (dashboardData result.1, prices result.1, news result.1)
         = (dashboardData s, prices s, news s)).
Proof.
  cbv zeta. unfold changeFilter. split.
  - intros Hf. rewrite bool_decide_eq_true_2 by exact Hf.
    rewrite Hf. destruct s; reflexivity.
  - intros Hf. rewrite bool_decide_eq_false_2 by exact Hf. repeat split.
Qed.

Lemma filter_change_refetches_witness :
  let s := fetchDashboardData env_all initial in
  (changeFilter "" s = (s, None))
  /\ (changeFilter "BUY" s).2 = Some (AwaitOverview 10 (Some "BUY"%string)).
Proof.
  destruct (filter_change_refetches "" (fetchDashboardData env_all initial))
    as [Hsame _].
  destruct (filter_change_refetches "BUY" (fetchDashboardData env_all initial))
    as [_ Hother].
  cbv zeta. split.
  - apply Hsame. reflexivity.
  - apply Hother. discriminate.
Defined.

End DashboardMore.

(** ** The other helpers *)

Section TextAndTime.
Import Helpers TextHelpers.

Variable numberToString : float -> string.

Lemma length_append_string (a b : string) :
  String.length (a ++ b) = (String.length a + String.length b)%nat.
Proof.
  induction a as [| c a IH]; [reflexivity |].
  change (S (String.length (a ++ b)) = S (String.length a + String.length b)).
  rewrite IH. reflexivity.
Qed.

Lemma length_substring_prefix k (s : string) :
  (k <= String.length s)%nat -> String.length (String.substring 0 k s) = k.
Proof.
  revert s. induction k as [| k IH]; intros [| c s] Hk; cbn in *;
    try reflexivity; try lia.
  rewrite IH by lia. reflexivity.
Qed.

Lemma append_empty_r (a : string) : (a ++ "")%string = a.
Proof.
  induction a as [| c a IH]; [reflexivity |].
  change (String c (a ++ "") = String c a). rewrite IH. reflexivity.
Qed.

(** [truncate] keeps a text no longer than the limit as it is, and cuts a
    longer one to its first [limit] characters followed by three dots:
    the result of a cut is [limit + 3] characters long, three more than
    the limit, and for a text only one or two characters over the limit
    longer than the text itself. *)
Theorem truncate_lengths text limit :
  0 <= limit ->
  let result := truncate (Some text) (Some limit) in
  let len := Z.of_nat (String.length text) in
  (len <= limit -> result = text)
  /\ (limit < len ->
      result = (String.substring 0 (Z.to_nat limit) text ++ "...")%string
      /\ Z.of_nat (String.length result) = limit + 3)
  /\ Z.of_nat (String.length result) <= limit + 3
  /\ (len = limit + 1 -> Z.of_nat (String.length result) = len + 2).
Proof.
  intros Hl. cbv zeta. unfold truncate, substring_to.
  change (default 100 (Some limit)) with limit. cbv zeta.
  assert (Hcut : limit < Z.of_nat (String.length text) ->
                 Z.of_nat (String.length
                             (String.substring 0 (Z.to_nat limit) text ++ "..."))
                 = limit + 3).
  { intros Hlt. rewrite length_append_string, length_substring_prefix by lia.
    cbn [String.length]. lia. }
  destruct text as [| c text].
  - cbn [Js.truthy negb String.length].
    split; [reflexivity |]. split; [intros H; cbn in H; lia |].
    split; [cbn; lia | intros H; cbn in H; lia].
  - cbn [Js.truthy negb].
    destruct (Z.leb_spec (Z.of_nat (String.length (String c text))) limit)
      as [Hle | Hgt].
    + split; [reflexivity |]. split; [intros H; lia |].
      split; [lia | intros H; lia].
    + split; [intros H; lia |]. split; [intros _; split; [reflexivity | auto] |].
      split; [rewrite Hcut by exact Hgt; lia |].
      intros H. rewrite Hcut by exact Hgt. lia.
Qed.

Lemma truncate_lengths_witness :
  truncate (Some "hello world"%string) (Some 5) = "hello..."%string
  /\ Z.of_nat (String.length (truncate (Some "hello world"%string) (Some 5))) = 5 + 3.
Proof.
  destruct (truncate_lengths "hello world" 5 ltac:(lia)) as (_ & Hcut & _).
  apply Hcut. cbn. lia.
Defined.

(** *** [extractTicker] *)

Lemma rep_inv a k : forall mx mn prev s m,
  RegexExec.rep a k mn mx prev s = Some m ->
  exists taken s' prev' m',
    s = (taken ++ s')%string /\ m = (taken ++ m')%string
    /\ k prev' s' = Some m'
    /\ (mn <= String.length taken <= mx)%nat
    /\ forall c, In c (list_ascii_of_string taken) ->
                 Regex.atom_matches a c = true.
Proof.
  assert (Hstop : forall mn mx prev s m,
             match mn with O => k prev s | S _ => None end = Some m ->
             exists taken s' prev' m',
               s = (taken ++ s')%string /\ m = (taken ++ m')%string
               /\ k prev' s' = Some m'
               /\ (mn <= String.length taken <= mx)%nat
               /\ forall c, In c (list_ascii_of_string taken) ->
                            Regex.atom_matches a c = true).
  { intros [| mn] mx prev s m H; [| discriminate H].
    exists EmptyString, s, prev, m.
    split; [reflexivity |]. split; [reflexivity |]. split; [exact H |].
    split; [cbn; lia | intros c []]. }
  induction mx as [| mx IH]; intros mn prev s m H.
  - cbn [RegexExec.rep] in H. apply (Hstop mn 0%nat prev s m).
    destruct s; exact H.
  - cbn [RegexExec.rep] in H. destruct s as [| c s].
    + apply (Hstop mn (S mx) prev _ m H).
    + destruct (Regex.atom_matches a c) eqn:Hc;
        [| apply (Hstop mn (S mx) prev _ m H)].
      destruct (RegexExec.rep a k (pred mn) mx (Some c) s) as [m1 |] eqn:Hrec;
        [| apply (Hstop mn (S mx) prev _ m H)].
      injection H as <-.
      destruct (IH _ _ _ _ Hrec) as (taken & s' & prev' & m' & -> & -> & Hk & Hlen & Hall).
      exists (String c taken), s', prev', m'.
      split; [reflexivity |]. split; [reflexivity |]. split; [exact Hk |].
      split; [cbn [String.length]; lia |].
      intros c' [<- | Hc']; [exact Hc | apply (Hall c' Hc')].
Qed.

Lemma exec_from_inv p : forall s prev m,
  RegexExec.exec_from p prev s = Some m ->
  exists pre prev' s1,
    s = (pre ++ s1)%string /\ RegexExec.exec_at p prev' s1 = Some m.
Proof.
  induction s as [| c s IH]; intros prev m H; cbn [RegexExec.exec_from] in H.
  - destruct (RegexExec.exec_at p prev "") as [m1 |] eqn:Hat; [| discriminate H].
    injection H as <-. exists EmptyString, prev, EmptyString. split; [reflexivity | exact Hat].
  - destruct (RegexExec.exec_at p prev (String c s)) as [m1 |] eqn:Hat.
    + injection H as <-. exists EmptyString, prev, (String c s).
      split; [reflexivity | exact Hat].
    + destruct (IH _ _ H) as (pre & prev' & s1 & -> & Hat').
      exists (String c pre), prev', s1. split; [reflexivity | exact Hat'].
Qed.

(** Whatever [extractTicker] finds in a text passes [isValidTicker]: it
    is a run of one to five letters A to Z, and it occurs in the text.
    (It is the first such run standing as a word of its own, so a one
    letter word like "I" is found before a ticker that follows it.) *)
Theorem extractTicker_is_valid text t :
  extractTicker text = Some t ->
  ticker_shaped t
  /\ isValidTicker numberToString (JsString t) = true
  /\ exists before after, text = (before ++ t ++ after)%string.
Proof.
  unfold extractTicker, RegexExec.exec. intros H.
  destruct (exec_from_inv _ _ _ _ H) as (pre & prev & s1 & -> & Hat).
  unfold word_ticker_pattern in Hat. cbn [RegexExec.exec_at] in Hat.
  destruct (RegexExec.at_boundary prev s1); [| discriminate Hat].
  destruct (rep_inv _ _ _ _ _ _ _ Hat)
    as (taken & s' & prev' & m' & -> & -> & Hk & Hlen & Hall).
  destruct (RegexExec.at_boundary prev' s'); [| discriminate Hk].
  injection Hk as <-. rewrite append_empty_r.
  assert (Hshape : ticker_shaped taken).
  { split; [exact Hlen |]. intros c Hc. apply atom_matches_upper.
    apply (Hall c Hc). }
  split; [exact Hshape |]. split; [| eauto].
  destruct taken as [| c taken]; [cbn in Hlen; lia |].
  unfold isValidTicker, falsy, toString. cbn [Js.truthy negb].
  rewrite ticker_test_at_start. apply ticker_match_shaped. exact Hshape.
Qed.

End TextAndTime.

Lemma extractTicker_is_valid_witness :
  TextHelpers.extractTicker "Should I buy AAPL today?" = Some "I"%string
  /\ Helpers.isValidTicker (fun _ => ""%string) (Helpers.JsString "I") = true.
Proof.
  split; [reflexivity |].
  apply (extractTicker_is_valid (fun _ => ""%string)
           "Should I buy AAPL today?" "I" eq_refl).
Defined.

Section MarketAndDates.
Import MarketHours RelativeDates.

Variable getFullYear : Z -> Z.
Variable toLocaleDateString : Z -> bool -> string.

(** The market counts as open from Monday to Friday between 9:15 and
    15:30, both ends included, in minutes of the day: the three tests on
    the hour and the minute amount to [9 * 60 + 15 <= 60 * hour + minute
    <= 15 * 60 + 30]. *)
Theorem markets_open_window t :
  0 <= day t <= 6 ->
  0 <= minutes t <= 59 ->
  areMarketsOpen t = true
  <-> 1 <= day t <= 5
      /\ 9 * 60 + 15 <= 60 * hour t + minutes t <= 15 * 60 + 30.
Proof.
  intros Hd Hm. unfold areMarketsOpen. rewrite !Z.gtb_ltb.
  destruct (Z.eqb_spec (day t) 0), (Z.eqb_spec (day t) 6),
    (Z.ltb_spec (hour t) 9), (Z.eqb_spec (hour t) 9),
    (Z.ltb_spec (minutes t) 15), (Z.ltb_spec 15 (hour t)),
    (Z.eqb_spec (hour t) 15), (Z.ltb_spec 30 (minutes t));
    cbn [orb andb]; split; intros Hopen; try discriminate Hopen;
    try reflexivity; lia.
Qed.

Lemma markets_open_window_witness :
  areMarketsOpen {| day := 5; hour := 15; minutes := 30 |} = true
  /\ areMarketsOpen {| day := 5; hour := 9; minutes := 14 |} = false.
Proof.
  split.
  - apply (markets_open_window {| day := 5; hour := 15; minutes := 30 |});
      cbn; lia.
  - destruct (areMarketsOpen {| day := 5; hour := 9; minutes := 14 |}) eqn:E;
      [| reflexivity].
    apply (markets_open_window {| day := 5; hour := 9; minutes := 14 |}) in E;
      cbn in *; lia.
Defined.

Lemma days_between d k :
  0 <= k -> k * day_ms <= d < (k + 1) * day_ms -> d / day_ms = k.
Proof.
  intros Hk Hd. symmetry. apply (Z.div_unique d day_ms k (d - k * day_ms)).
  - left. unfold day_ms in *. lia.
  - lia.
Qed.

(** [formatDate] looks only at the distance between the date and now,
    in whole days of 24 hours, as long as it is under a week: under 24
    hours it says "Today", under 48 "Yesterday", then "N days ago" with
    N from 2 to 6.  The direction does not count, so a date in the
    future reads like the date as far in the past. *)
Theorem formatDate_by_distance date now :
  let distance := Z.abs (now - date) in
  let formatted := formatDate getFullYear toLocaleDateString date now in
  (distance < day_ms -> formatted = "Today"%string)
  /\ (day_ms <= distance < 2 * day_ms -> formatted = "Yesterday"%string)
  /\ (forall n, 2 <= n <= 6 ->
        n * day_ms <= distance < (n + 1) * day_ms ->
        formatted = (Helpers.digits n ++ " days ago")%string)
  /\ (distance < 7 * day_ms ->
      formatDate getFullYear toLocaleDateString (now + (now - date)) now
      = formatted).
Proof.
  cbv zeta. unfold formatDate. cbv zeta.
  replace (now - (now + (now - date))) with (- (now - date)) by lia.
  rewrite Z.abs_opp.
  pose proof (Z.abs_nonneg (now - date)) as Hnn.
  split; [| split; [| split]].
  - intros H. rewrite (days_between _ 0) by lia. reflexivity.
  - intros H. rewrite (days_between _ 1) by lia. reflexivity.
  - intros n Hn H. rewrite (days_between _ n) by lia.
    destruct (Z.eqb_spec n 0); [lia |]. destruct (Z.eqb_spec n 1); [lia |].
    destruct (Z.ltb_spec n 7); [reflexivity | lia].
  - intros H.
    assert (Hq : 0 <= Z.abs (now - date) / day_ms < 7).
    { split; [apply Z.div_pos; unfold day_ms; lia |].
      apply Z.div_lt_upper_bound; unfold day_ms in *; lia. }
    destruct (Z.eqb_spec (Z.abs (now - date) / day_ms) 0); [reflexivity |].
    destruct (Z.eqb_spec (Z.abs (now - date) / day_ms) 1); [reflexivity |].
    destruct (Z.ltb_spec (Z.abs (now - date) / day_ms) 7); [reflexivity | lia].
Qed.

End MarketAndDates.

Lemma formatDate_by_distance_witness :
  RelativeDates.formatDate (fun _ => 2025) (fun _ _ => ""%string)
    (1000 + 3 * RelativeDates.day_ms) 0
  = "3 days ago"%string.
Proof.
  destruct (formatDate_by_distance (fun _ => 2025) (fun _ _ => ""%string)
              (1000 + 3 * RelativeDates.day_ms) 0) as (_ & _ & Hn & _).
  apply (Hn 3); [lia | unfold RelativeDates.day_ms; lia].
Defined.

(** ** The analysis hook *)

Section AnalysisHook.
Import Js StockAnalysis.

Variable Analysis : Type.

Lemma fetchAnalysis_settle_state (o : completion Analysis) s :
  (fetchAnalysis_settle Analysis o s).1
  = {| analysis := match o with
                   | Normal data => Some data
                   | Throw _ => analysis Analysis s
                   end;
       loading := false;
       error := match o with
                | Normal _ => error Analysis s
                | Throw e => Some (message e)
                end |}.
Proof. destruct o; reflexivity. Qed.

(** The analysis the hook holds is replaced by a successful response and
    by nothing else.  For a ticker that is [null] or empty the effect
    requests nothing and leaves the state as it is, so the analysis of
    the ticker before stays; a request that fails sets [error] to its
    message and leaves the analysis before in place beside it.  Either
    way the call ends with [loading] false. *)
Theorem analysis_replaced_on_success_only ticker (o : completion Analysis) s :
  let started := fetchAnalysis_begin Analysis ticker s in
  (truthy_opt ticker = false -> started = (s, None))
  /\ (truthy_opt ticker = true ->
      let s' := (fetchAnalysis_settle Analysis o started.1).1 in
      started.2 = ticker
      /\ loading Analysis started.1 = true
      /\ analysis Analysis started.1 = analysis Analysis s
      /\ loading Analysis s' = false
      /\ match o with
         | Normal data =>
             analysis Analysis s' = Some data /\ error Analysis s' = None
         | Throw e =>
             analysis Analysis s' = analysis Analysis s
             /\ error Analysis s' = Some (message e)
         end).
Proof.
  cbv zeta. unfold fetchAnalysis_begin. split; intros Ht; rewrite Ht.
  - reflexivity.
  - rewrite fetchAnalysis_settle_state. cbn [fst snd].
    destruct o; repeat split.
Qed.

(** The effect has no cleanup: when the ticker changes while a request
    is in flight, both responses are applied as they arrive.  If the
    response for the earlier ticker arrives last, its analysis is the
    one the hook ends with; and [loading] is already false when the
    first of the two has arrived. *)
Theorem late_analysis_overwrites ticker1 ticker2 (data1 data2 : Analysis) s :
  truthy_opt ticker1 = true ->
  truthy_opt ticker2 = true ->
  let s1 := (fetchAnalysis_begin Analysis ticker1 s).1 in
  let s2 := (fetchAnalysis_begin Analysis ticker2 s1).1 in
  let s3 := (fetchAnalysis_settle Analysis (Normal data2) s2).1 in
  let s4 := (fetchAnalysis_settle Analysis (Normal data1) s3).1 in
  analysis Analysis s3 = Some data2
  /\ loading Analysis s3 = false
  /\ analysis Analysis s4 = Some data1.
Proof.
  intros H1 H2. cbv zeta. rewrite !fetchAnalysis_settle_state. repeat split.
Qed.

End AnalysisHook.

Lemma analysis_replaced_on_success_only_witness :
  let failure := {| Js.message := "timeout of 30000ms exceeded";
                    Js.status := None |} in
  let s := {| StockAnalysis.analysis := Some 7%nat;
              StockAnalysis.loading := false;
              StockAnalysis.error := None |} in
  StockAnalysis.fetchAnalysis_begin nat None s = (s, None)
  /\ StockAnalysis.analysis nat
       (StockAnalysis.fetchAnalysis_settle nat (Js.Throw failure)
          (StockAnalysis.fetchAnalysis_begin nat (Some "AAPL"%string) s).1).1
     = Some 7%nat.
Proof.
  cbv zeta. split.
  - apply (analysis_replaced_on_success_only nat None
             (Js.Throw {| Js.message := "timeout of 30000ms exceeded";
                          Js.status := None |})).
    reflexivity.
  - apply (analysis_replaced_on_success_only nat (Some "AAPL"%string)
             (Js.Throw {| Js.message := "timeout of 30000ms exceeded";
                          Js.status := None |})).
    reflexivity.
Defined.

Lemma late_analysis_overwrites_witness :
  let s := StockAnalysis.initial nat in
  let s2 := (StockAnalysis.fetchAnalysis_begin nat (Some "MSFT"%string)
               (StockAnalysis.fetchAnalysis_begin nat (Some "AAPL"%string) s).1).1 in
  StockAnalysis.analysis nat
    (StockAnalysis.fetchAnalysis_settle nat (Js.Normal 1%nat)
       (StockAnalysis.fetchAnalysis_settle nat (Js.Normal 2%nat) s2).1).1
  = Some 1%nat.
Proof.
  cbv zeta.
  apply (late_analysis_overwrites nat (Some "AAPL"%string)
           (Some "MSFT"%string) 1%nat 2%nat (StockAnalysis.initial nat)
           eq_refl eq_refl).
Defined.
